(** * plane-discord-webhooks: the webhook relay of [src/app/app.js]

    A shallow embedding of the [POST /webhook] handler: the signature check,
    the pending-record table [sequenceMap] with its expiry timers, the embed
    construction and the single delivery to the Discord sink.

    The model starts where Express hands the handler a request whose body was
    read into a Buffer ([express.raw]).  What Node itself provides (the keyed
    hash, [JSON.parse], the date parser) is a parameter of the development, the
    class [Runtime]; every general theorem holds for any runtime.  A reference
    runtime (a real HMAC-SHA256, a JSON reader for a fragment of JSON, an ISO
    date reader) instantiates it for the closed examples. *)

From Stdlib Require Import ZArith Lia String Ascii List.
From Stdlib.Strings Require Import Byte.
From stdpp Require Import gmap strings list fin_maps pretty.

Open Scope Z_scope.
Set Warnings "-register-all".

(** ** JavaScript values *)

(** Strings are sequences of code units below 256 (what a header or an ASCII
    payload holds). *)

(** The numbers the handler computes with are time values: an integral number
    of milliseconds, or [NaN].  Time values are bounded by 8.64e15 (see
    [TimeClip]), so the comparisons the handler makes on a difference of two of
    them are the comparisons on the exact integer difference. *)
Inductive number : Type :=
| NaN
| Num (z : Z).

(** What [JSON.parse] returns, plus [undefined] for a missing member.  Numbers
    in payloads are modelled at integral values; an object is the list of its
    own members, each key once. *)
Inductive jsval : Type :=
| JUndefined
| JNull
| JBool (b : bool)
| JNum (n : Z)
| JStr (s : string)
| JArr (items : list jsval)
| JObj (members : list (string * jsval)).

(** What a faulting evaluation throws. *)
Inductive Exn : Type :=
| SyntaxError
| TypeError
| RangeError
| Error (message : string).

(** A pure evaluation that may throw. *)
Inductive Completion (A : Type) : Type :=
| Normal (a : A)
| Throw (e : Exn).
Arguments Normal {A} a.
Arguments Throw {A} e.

Definition bindC {A B : Type} (c : Completion A) (k : A -> Completion B) : Completion B :=
  match c with
  | Normal a => k a
  | Throw e => Throw e
  end.

Notation "'let?' x := c 'in' k" := (bindC c (fun x => k))
  (at level 10, x name, c at level 100, k at level 200).

(** [a - b] on numbers. *)
Definition num_sub (a b : number) : number :=
  match a, b with
  | Num x, Num y => Num (x - y)
  | _, _ => NaN
  end.

(** [a >= b], [a < b] and [a === b] on numbers: false as soon as one is NaN. *)
Definition num_ge (a b : number) : bool :=
  match a, b with
  | Num x, Num y => y <=? x
  | _, _ => false
  end.

Definition num_lt (a b : number) : bool :=
  match a, b with
  | Num x, Num y => x <? y
  | _, _ => false
  end.

Definition num_strict_eq (a b : number) : bool :=
  match a, b with
  | Num x, Num y => x =? y
  | _, _ => false
  end.

(** The range of a Date's time value: outside of it the time value is NaN. *)
Definition TimeClip (t : number) : number :=
  match t with
  | Num z => if Z.abs z <=? 8640000000000000 then Num z else NaN
  | NaN => NaN
  end.

(** An own member of an object. *)
Fixpoint own (k : string) (members : list (string * jsval)) : option jsval :=
  match members with
  | [] => None
  | (k', v) :: rest => if String.eqb k k' then Some v else own k rest
  end.

(** [v.k], for the member names the handler reads (none of them is found on
    a prototype): a fault on [undefined] and [null], the own member of an
    object, [undefined] on anything else. *)
Definition get (v : jsval) (k : string) : Completion jsval :=
  match v with
  | JUndefined | JNull => Throw TypeError
  | JObj members => Normal (default JUndefined (own k members))
  | _ => Normal JUndefined
  end.

(** [v?.k] *)
Definition optget (v : jsval) (k : string) : jsval :=
  match v with
  | JObj members => default JUndefined (own k members)
  | _ => JUndefined
  end.

(** [v ?? d] *)
Definition nullish_or (v d : jsval) : jsval :=
  match v with
  | JUndefined | JNull => d
  | _ => v
  end.

(** Truthiness, as [||] and [!] test it. *)
Definition truthy (v : jsval) : bool :=
  match v with
  | JUndefined | JNull => false
  | JBool b => b
  | JNum n => negb (n =? 0)
  | JStr s => negb (String.eqb s "")
  | JArr _ | JObj _ => true
  end.

(** Conversion to a string, as a template literal and [String(v)] do it.  An
    array joins its items with commas; an object parsed from JSON prints as
    [[object Object]] unless it has an own member [toString], which is no
    function, and the conversion faults. *)
Fixpoint ToString (v : jsval) : Completion string :=
  match v with
  | JUndefined => Normal "undefined"
  | JNull => Normal "null"
  | JBool b => Normal (if b then "true" else "false")
  | JNum n => Normal (pretty n)
  | JStr s => Normal s
  | JArr items =>
      (fix join (l : list jsval) : Completion string :=
         match l with
         | [] => Normal ""
         | x :: rest =>
             let? sx := match x with
                        | JUndefined | JNull => Normal ""
                        | _ => ToString x
                        end in
             match rest with
             | [] => Normal sx
             | _ => let? sr := join rest in Normal (sx +:+ "," +:+ sr)
             end
         end) items
  | JObj members =>
      match own "toString" members with
      | Some _ => Throw TypeError
      | None => Normal "[object Object]"
      end
  end.

(** [s.toUpperCase()] on code units below 256.  The letters a-z and the
    letters 224-254 of Latin-1 (all but the division sign, 247) go to the
    code unit 32 below; the sharp s (223) goes to the two letters SS; every
    other code unit stays, as the Unicode case mapping has it.  Two code
    units go where no string of this model follows: the micro sign (181)
    goes to U+039C and the y with diaeresis (255) to U+0178.  They are left
    in place here, and [upper_in_range] tells the strings that hold neither:
    on these [toUpperCase] is what JavaScript returns. *)
Definition upper_char (c : ascii) : ascii :=
  let n := N_of_ascii c in
  if (((97 <=? n) && (n <=? 122)) || ((224 <=? n) && (n <=? 254) && negb (n =? 247)))%N
  then ascii_of_N (n - 32) else c.

Fixpoint toUpperCase (s : string) : string :=
  match s with
  | EmptyString => EmptyString
  | String c rest =>
      if (N_of_ascii c =? 223)%N then String "S" (String "S" (toUpperCase rest))
      else String (upper_char c) (toUpperCase rest)
  end.

(** The upper case of [s] holds code units below 256 only: [s] has no micro
    sign and no y with diaeresis. *)
Fixpoint upper_in_range (s : string) : bool :=
  match s with
  | EmptyString => true
  | String c rest =>
      negb (N_of_ascii c =? 181)%N && negb (N_of_ascii c =? 255)%N && upper_in_range rest
  end.

(** [v.toUpperCase()] on a value: only a string has the method. *)
Definition call_toUpperCase (v : jsval) : Completion string :=
  match v with
  | JStr s => Normal (toUpperCase s)
  | _ => Throw TypeError
  end.

(** [Buffer.from(s, "utf-8")]: one byte for a code unit below 128, two for
    the others. *)
Definition utf8_unit (c : ascii) : list byte :=
  let n := N_of_ascii c in
  if (n <? 128)%N then [byte_of_ascii c]
  else [byte_of_ascii (ascii_of_N (192 + n / 64)); byte_of_ascii (ascii_of_N (128 + n mod 64))].

Fixpoint Buffer_from (s : string) : list byte :=
  match s with
  | EmptyString => []
  | String c rest => utf8_unit c ++ Buffer_from rest
  end.

#[global] Instance byte_eq_decision : EqDecision byte := Byte.byte_eq_dec.

(** [crypto.timingSafeEqual(a, b)]: a RangeError on buffers of different
    lengths, otherwise whether they hold the same bytes. *)
Definition timingSafeEqual (a b : list byte) : Completion bool :=
  if (length a =? length b)%nat then Normal (bool_decide (a = b)) else Throw RangeError.

(** ** The runtime, the configuration and the handler's inputs *)

(** What Node provides and the handler calls. *)
Class Runtime : Type := {
  (** [createHmac("sha256", key).update(body).digest("hex")] *)
  createHmac_sha256_hex : string -> list byte -> string;
  (** [JSON.parse(body.toString("utf-8"))]; [None] when it throws a SyntaxError *)
  JSON_parse : list byte -> option jsval;
  (** [Date.parse(s)] *)
  Date_parse : string -> number;
}.

(** [process.env.WEBHOOK_SECRET] and [process.env.DISCORD_WEBHOOK]. *)
Record Config : Type := {
  WebhookSecret : option string;
  DiscordWebhookUrl : option string;
}.

(** [!v] is false: the variable is set and is not the empty string. *)
Definition present (v : option string) : option string :=
  match v with
  | Some s => if String.eqb s "" then None else Some s
  | None => None
  end.

(** Lines 24-28: the module throws at load time unless both variables are
    present. *)
Definition startup (cfg : Config) : Completion unit :=
  match present (WebhookSecret cfg), present (DiscordWebhookUrl cfg) with
  | Some _, Some _ => Normal tt
  | _, _ =>
      Throw (Error "Missing required environment variables: WEBHOOK_SECRET or DISCORD_WEBHOOK_URL")
  end.

(** A request as the handler reads it: the [x-plane-signature] header and the
    raw body. *)
Record Request : Type := {
  x_plane_signature : option string;
  body : list byte;
}.

(** How the sink answers a delivery: with a status, or not at all ([fetch]
    rejects). *)
Inductive FetchOutcome : Type :=
| Replied (status : Z)
| Unreachable.

(** What the world holds for one request: the sink's answer should a delivery
    be made, and [new Date().toISOString()] at that moment. *)
Record Env : Type := {
  sink : FetchOutcome;
  now : string;
}.

Record Response : Type := {
  status : Z;
  text : string;
}.

(** The embed sent to the sink (lines 117-138). *)
Record EmbedField : Type := {
  name : string;
  value : jsval;
  inline : option bool;
}.

Record Embed : Type := {
  title : string;
  description : string;
  color : Z;
  fields : list EmbedField;
  embed_timestamp : string;
}.

(** ** The pending-record table and its timers *)

(** A record of [sequenceMap]: [{ timestamp, action }]. *)
Record PendingRecord : Type := {
  timestamp : number;
  action : jsval;
}.

(** A pending [setTimeout] of lines 94-99: the closure's [sequenceKey] and
    [incomingTimestamp]. *)
Record Timer : Type := {
  timer_key : string;
  timer_stamp : number;
}.

(** The module's mutable state: the table, and the timers not fired yet, the
    oldest first. *)
Record Store : Type := {
  sequenceMap : gmap string PendingRecord;
  timers : list Timer;
}.

Definition WINDOW_MS : Z := 1500.

(** What a request does besides answering and updating the store. *)
Inductive Effect : Type :=
| Compare (a b : list byte)                     (* a call of timingSafeEqual *)
| Fetch (url : option string) (payload : Embed) (* a call of fetch *)
| ConsoleError (e : Exn).                       (* the catch clause's log *)

(** ** The handler's monad: state, a trace of effects, and exceptions *)

Record Outcome (A : Type) : Type := {
  completion : Completion A;
  store : Store;
  trace : list Effect;
}.
Arguments completion {A} o.
Arguments store {A} o.
Arguments trace {A} o.

Definition M (A : Type) : Type := Store -> Outcome A.

Definition ret {A : Type} (a : A) : M A :=
  fun s => {| completion := Normal a; store := s; trace := [] |}.

Definition bind {A B : Type} (m : M A) (k : A -> M B) : M B :=
  fun s =>
    let o := m s in
    match completion o with
    | Normal a =>
        let o' := k a (store o) in
        {| completion := completion o'; store := store o'; trace := trace o ++ trace o' |}
    | Throw e => {| completion := Throw e; store := store o; trace := trace o |}
    end.

Notation "'let*' x := c 'in' k" := (bind c (fun x => k))
  (at level 10, x name, c at level 100, k at level 200).

Definition liftC {A : Type} (c : Completion A) : M A :=
  fun s => {| completion := c; store := s; trace := [] |}.

Definition tell (e : Effect) : M unit :=
  fun s => {| completion := Normal tt; store := s; trace := [e] |}.

Definition Map_get (k : string) : M (option PendingRecord) :=
  fun s => {| completion := Normal (sequenceMap s !! k); store := s; trace := [] |}.

Definition Map_set (k : string) (r : PendingRecord) : M unit :=
  fun s => {| completion := Normal tt;
              store := {| sequenceMap := <[k := r]> (sequenceMap s); timers := timers s |};
              trace := [] |}.

Definition Map_delete (k : string) : M unit :=
  fun s => {| completion := Normal tt;
              store := {| sequenceMap := delete k (sequenceMap s); timers := timers s |};
              trace := [] |}.

Definition setTimeout (t : Timer) : M unit :=
  fun s => {| completion := Normal tt;
              store := {| sequenceMap := sequenceMap s; timers := timers s ++ [t] |};
              trace := [] |}.

(** The callback of lines 94-99, run on the table when its timer fires. *)
Definition expiry (t : Timer) (m : gmap string PendingRecord) : gmap string PendingRecord :=
  match m !! timer_key t with
  | Some record =>
      if num_strict_eq (timestamp record) (timer_stamp t) then delete (timer_key t) m else m
  | None => m
  end.

(** ** The handler *)

(** The outcome of the signature check (lines 58-77). *)
Inductive Verdict : Type :=
| Authentic
| Rejected (r : Response).

(** What lines 79-84 compute from the body. *)
Record Envelope : Type := {
  e_event : jsval;
  e_action : jsval;
  e_data : jsval;
  e_activity : jsval;
  incomingTimestamp : number;
  entityId : jsval;
  sequenceKey : string;
}.

(** The three ways lines 86-158 treat an authentic event; the completing
    branch has the cached record in scope. *)
Inductive Decision : Type :=
| Cached
| Completed (existingRecord : PendingRecord)
| Reset.

(** What one request leaves behind. *)
Record Reply : Type := {
  response : Response;
  after : Store;
  effects : list Effect;
}.

(** [v === s] for a string literal [s]. *)
Definition is_string (v : jsval) (s : string) : bool :=
  match v with
  | JStr s' => String.eqb s' s
  | _ => false
  end.

(** The answers of lines 62, 76 and 161. *)
Definition unauthorized : Response := {| status := 401; text := "Unauthorized" |}.
Definition forbidden : Response := {| status := 403; text := "Forbidden" |}.
Definition internal_error : Response := {| status := 500; text := "Internal Server Error" |}.

(** A value that is no array and no object: its conversion to a string
    cannot fault. *)
Definition primitive (v : jsval) : bool :=
  match v with
  | JArr _ | JObj _ => false
  | _ => true
  end.

(** [undefined] or [null]. *)
Definition nullish (v : jsval) : bool :=
  match v with
  | JUndefined | JNull => true
  | _ => false
  end.

Section Handler.
Context `{RT : Runtime} (cfg : Config).

(** Lines 58-77: 401 when the secret or the signature is missing, 403 when
    the buffers differ in length or, compared by [timingSafeEqual], in
    content. *)
Definition verify (req : Request) : M Verdict :=
  let ProvidedSignature := x_plane_signature req in
  let RequestBody := body req in
  match present (WebhookSecret cfg), present ProvidedSignature with
  | Some secret, Some provided =>
      let ExpectedSignature := createHmac_sha256_hex secret RequestBody in
      let ExpectedBuffer := Buffer_from ExpectedSignature in
      let ProvidedBuffer := Buffer_from provided in
      let* differ :=
        if negb (length ExpectedBuffer =? length ProvidedBuffer)%nat then ret true
        else
          let* _ := tell (Compare ExpectedBuffer ProvidedBuffer) in
          let* same := liftC (timingSafeEqual ExpectedBuffer ProvidedBuffer) in
          ret (negb same) in
      if differ then ret (Rejected forbidden) else ret Authentic
  | _, _ => ret (Rejected unauthorized)
  end.

(** [new Date(v).getTime()] *)
Definition Date_getTime (v : jsval) : Completion number :=
  match v with
  | JUndefined => Normal NaN
  | JNull => Normal (Num 0)
  | JBool b => Normal (Num (if b then 1 else 0))
  | JNum n => Normal (TimeClip (Num n))
  | JStr s => Normal (TimeClip (Date_parse s))
  | JArr _ | JObj _ => let? s := ToString v in Normal (TimeClip (Date_parse s))
  end.

(** Lines 79-84. *)
Definition parseEnvelope (RequestBody : list byte) : Completion Envelope :=
  match JSON_parse RequestBody with
  | None => Throw SyntaxError
  | Some RequestData =>
      let? event := get RequestData "event" in
      let? action := get RequestData "action" in
      let? data := get RequestData "data" in
      let? activity := get RequestData "activity" in
      let? updated_at := get data "updated_at" in
      let? incomingTimestamp := Date_getTime updated_at in
      let? entityId := get data "id" in
      let? event_text := ToString event in
      let? id_text := ToString entityId in
      Normal {| e_event := event; e_action := action; e_data := data; e_activity := activity;
                incomingTimestamp := incomingTimestamp; entityId := entityId;
                sequenceKey := event_text +:+ ":" +:+ id_text |}
  end.

(** The correlation step of lines 86-107 and 153-156, under the name the
    specification gives it. *)
Definition observe (sequenceKey : string) (incomingTimestamp : number) (action : jsval)
  : M Decision :=
  let* existingRecord := Map_get sequenceKey in
  match existingRecord with
  | None =>
      let* _ := Map_set sequenceKey {| timestamp := incomingTimestamp; action := action |} in
      let* _ := setTimeout {| timer_key := sequenceKey; timer_stamp := incomingTimestamp |} in
      ret Cached
  | Some existingRecord =>
      let timeDifference := num_sub incomingTimestamp (timestamp existingRecord) in
      if num_ge timeDifference (Num 0) && num_lt timeDifference (Num WINDOW_MS) then
        let* _ := Map_delete sequenceKey in
        ret (Completed existingRecord)
      else
        let* _ := Map_set sequenceKey {| timestamp := incomingTimestamp; action := action |} in
        ret Reset
  end.

(** Lines 109-138: the embed, built from the request being handled. *)
Definition buildEmbed (e : Envelope) (nowISO : string) : Completion Embed :=
  let activity := e_activity e in
  let data := e_data e in
  let fieldType := nullish_or (optget activity "field") (JStr "No field data") in
  let? content :=
    if is_string fieldType "state" then
      let? newState := ToString (nullish_or (optget activity "new_value") (JStr "Unknown")) in
      Normal (JStr ("Issue is now in " +:+ toUpperCase newState))
    else Normal fieldType in
  let? EVENT := call_toUpperCase (e_event e) in
  let? ACTION := call_toUpperCase (e_action e) in
  let? data_name := get data "name" in
  let? data_id := get data "id" in
  let? entity := ToString (if truthy data_name then data_name else data_id) in
  Normal {| title := EVENT +:+ " " +:+ ACTION;
            description := "**Entity:** " +:+ entity;
            color := 0x509bea;
            fields :=
              [ {| name := "Type"; value := fieldType; inline := Some true |};
                {| name := "By";
                   value := nullish_or (optget (optget activity "actor") "display_name")
                                       (JStr "Unknown User");
                   inline := Some true |};
                {| name := "Content"; value := content; inline := None |} ];
            embed_timestamp := nowISO |}.

(** Lines 140-150: one call of [fetch]; the sink's answer decides between
    200 and a fault.  The handler awaits the answer, and touches no state
    after it. *)
Definition deliver (payload : Embed) (env : Env) : M Response :=
  let* _ := tell (Fetch (DiscordWebhookUrl cfg) payload) in
  match DiscordWebhookUrl cfg, sink env with
  | Some _, Replied code =>
      if (200 <=? code) && (code <=? 299)
      then ret {| status := 200; text := "Sequence complete" |}
      else liftC (Throw (Error ("Discord API error: " +:+ pretty code)))
  | _, _ => liftC (Throw TypeError)
  end.

(** Lines 79-158: what the handler does with a request that passed the
    signature check. *)
Definition relay (RequestBody : list byte) (env : Env) : M Response :=
  let* e := liftC (parseEnvelope RequestBody) in
  let* decision := observe (sequenceKey e) (incomingTimestamp e) (e_action e) in
  match decision with
  | Cached => ret {| status := 200; text := "Initial event cached" |}
  | Completed _ =>
      let* embed := liftC (buildEmbed e (now env)) in
      deliver embed env
  | Reset => ret {| status := 200; text := "Window reset" |}
  end.

(** The body of the [try] block, lines 58-158. *)
Definition webhook_try (req : Request) (env : Env) : M Response :=
  let* verdict := verify req in
  match verdict with
  | Rejected r => ret r
  | Authentic => relay (body req) env
  end.

(** The [catch] clause, lines 159-162: a fault is logged and answered 500. *)
Definition catch (o : Outcome Response) : Reply :=
  match completion o with
  | Normal r => {| response := r; after := store o; effects := trace o |}
  | Throw e =>
      {| response := internal_error;
         after := store o;
         effects := trace o ++ [ConsoleError e] |}
  end.

(** The handler of [POST /webhook], lines 56-163. *)
Definition webhook (req : Request) (env : Env) (s : Store) : Reply :=
  catch (webhook_try req env s).

(** ** The server over time *)

(** What happens to the server: a request arrives, or the oldest pending
    timer fires (all timers wait the same [WINDOW_MS], so they fire in the
    order they were set). *)
Inductive Input : Type :=
| Deliver (req : Request) (env : Env)
| Tick.

Definition fire (s : Store) : Store :=
  match timers s with
  | [] => s
  | t :: rest => {| sequenceMap := expiry t (sequenceMap s); timers := rest |}
  end.

Definition step (i : Input) (s : Store) : Store :=
  match i with
  | Deliver req env => after (webhook req env s)
  | Tick => fire s
  end.

Fixpoint run (inputs : list Input) (s : Store) : Store :=
  match inputs with
  | [] => s
  | i :: rest => run rest (step i s)
  end.

(** ** Notions the statements below are written in *)

(** The request carries the signature of its body: both secret and signature
    are present and the two buffers hold the same bytes. *)
Definition authentic (req : Request) : bool :=
  match present (WebhookSecret cfg), present (x_plane_signature req) with
  | Some secret, Some provided =>
      bool_decide (Buffer_from (createHmac_sha256_hex secret (body req)) = Buffer_from provided)
  | _, _ => false
  end.

(** The decision the handler takes on a request in a store, when it gets
    that far. *)
Definition decision_of (req : Request) (s : Store) : option Decision :=
  if authentic req then
    match parseEnvelope (body req) with
    | Normal e =>
        match completion (observe (sequenceKey e) (incomingTimestamp e) (e_action e) s) with
        | Normal d => Some d
        | Throw _ => None
        end
    | Throw _ => None
    end
  else None.

(** The window test of line 106 on the two timestamps. *)
Definition in_window (incoming cached : number) : bool :=
  num_ge (num_sub incoming cached) (Num 0) && num_lt (num_sub incoming cached) (Num WINDOW_MS).

(** The store an authentic event leaves, whatever comes of the delivery. *)
Definition observed (e : Envelope) (s : Store) : Store :=
  store (observe (sequenceKey e) (incomingTimestamp e) (e_action e) s).

(** The sink accepted the delivery: [discordResponse.ok]. *)
Definition sink_ok (env : Env) : bool :=
  match DiscordWebhookUrl cfg, sink env with
  | Some _, Replied code => (200 <=? code) && (code <=? 299)
  | _, _ => false
  end.

(** What a delivery that is not accepted throws. *)
Definition delivery_fault (env : Env) : Exn :=
  match DiscordWebhookUrl cfg, sink env with
  | Some _, Replied code => Error ("Discord API error: " +:+ pretty code)
  | _, _ => TypeError
  end.

(** A delivery to the sink. *)
Definition is_fetch (e : Effect) : bool :=
  match e with
  | Fetch _ _ => true
  | _ => false
  end.

Definition is_compare (e : Effect) : bool :=
  match e with
  | Compare _ _ => true
  | _ => false
  end.

(** No request among the inputs is an event of the key [k]. *)
Definition leave_alone (k : string) (inputs : list Input) : Prop :=
  forall req env e,
    In (Deliver req env) inputs -> authentic req = true ->
    parseEnvelope (body req) = Normal e -> sequenceKey e <> k.

End Handler.

(** The store of a server that has just started. *)
Definition init : Store := {| sequenceMap := ∅; timers := [] |}.

(** How many timers fire in a sequence of inputs. *)
Fixpoint ticks (inputs : list Input) : nat :=
  match inputs with
  | [] => 0
  | Tick :: rest => S (ticks rest)
  | Deliver _ _ :: rest => ticks rest
  end.

(** ** A reference runtime

    The closed examples below run the handler on real requests: bodies that
    are JSON texts, signed with HMAC-SHA256.  The keyed hash is the real one;
    the JSON reader and the date reader cover the texts the examples use. *)

Module Reference.

(** *** SHA-256 and HMAC (FIPS 180-4, RFC 2104) on bytes as integers *)

Definition w32 (x : Z) : Z := x mod 2 ^ 32.

Definition rotr (n x : Z) : Z := Z.lor (Z.shiftr x n) (w32 (Z.shiftl x (32 - n))).

Definition is_prime (n : Z) : bool :=
  forallb (fun d => negb (n mod d =? 0)) (seqZ 2 (n - 2)).

(** The first 64 primes: 2, ..., 311. *)
Definition primes : list Z := filter (fun n => is_prime n = true) (seqZ 2 310).

(** The largest [r] below [2 ^ bits] with [pow r <= n]. *)
Fixpoint root_below (bits : nat) (pow : Z -> Z) (n r : Z) : Z :=
  match bits with
  | O => r
  | S bits' =>
      let c := r + 2 ^ Z.of_nat bits' in
      if pow c <=? n then root_below bits' pow n c else root_below bits' pow n r
  end.

(** The round constants: the first 32 bits of the fractional parts of the
    cube roots of the primes.  The initial hash value: likewise for the
    square roots of the first eight. *)
Definition round_constants : list Z :=
  Eval vm_compute in
    map (fun p => w32 (root_below 40 (fun c => c * c * c) (p * 2 ^ 96) 0)) primes.

Definition initial_hash : list Z :=
  Eval vm_compute in map (fun p => w32 (Z.sqrt (p * 2 ^ 64))) (take 8 primes).

Definition Ch (x y z : Z) : Z := Z.lxor (Z.land x y) (Z.land (Z.lxor x 0xffffffff) z).
Definition Maj (x y z : Z) : Z := Z.lxor (Z.lxor (Z.land x y) (Z.land x z)) (Z.land y z).
Definition Sigma0 (x : Z) : Z := Z.lxor (Z.lxor (rotr 2 x) (rotr 13 x)) (rotr 22 x).
Definition Sigma1 (x : Z) : Z := Z.lxor (Z.lxor (rotr 6 x) (rotr 11 x)) (rotr 25 x).
Definition sigma0 (x : Z) : Z := Z.lxor (Z.lxor (rotr 7 x) (rotr 18 x)) (Z.shiftr x 3).
Definition sigma1 (x : Z) : Z := Z.lxor (Z.lxor (rotr 17 x) (rotr 19 x)) (Z.shiftr x 10).

(** The message schedule, newest word first. *)
Fixpoint schedule (more : nat) (w : list Z) : list Z :=
  match more with
  | O => w
  | S more' =>
      schedule more'
        (w32 (sigma1 (nth 1 w 0) + nth 6 w 0 + sigma0 (nth 14 w 0) + nth 15 w 0) :: w)
  end.

Definition round (h : list Z) (kw : Z * Z) : list Z :=
  match h with
  | [a; b; c; d; e; f; g; hh] =>
      let t1 := hh + Sigma1 e + Ch e f g + fst kw + snd kw in
      let t2 := Sigma0 a + Maj a b c in
      [w32 (t1 + t2); a; b; c; w32 (d + t1); e; f; g]
  | _ => h
  end.

(** One block of sixteen words. *)
Definition compress (h : list Z) (block : list Z) : list Z :=
  let w := rev (schedule 48 (rev block)) in
  map (fun p => w32 (fst p + snd p)) (combine h (fold_left round (combine round_constants w) h)).

(** Big-endian words of [n] bytes (four for a word, eight for the length). *)
Fixpoint be_bytes (n : nat) (x : Z) : list Z :=
  match n with
  | O => []
  | S n' => (x / 256 ^ Z.of_nat n') mod 256 :: be_bytes n' x
  end.

Fixpoint words (fuel : nat) (bs : list Z) : list Z :=
  match fuel, bs with
  | S fuel', b0 :: b1 :: b2 :: b3 :: rest =>
      (((b0 * 256 + b1) * 256 + b2) * 256 + b3) :: words fuel' rest
  | _, _ => []
  end.

Definition pad (msg : list Z) : list Z :=
  let len := Z.of_nat (length msg) in
  msg ++ [128] ++ repeat 0 (Z.to_nat ((55 - len) mod 64)) ++ be_bytes 8 (8 * len).

Fixpoint blocks (fuel : nat) (h : list Z) (ws : list Z) : list Z :=
  match fuel, ws with
  | S fuel', _ :: _ => blocks fuel' (compress h (take 16 ws)) (drop 16 ws)
  | _, _ => h
  end.

Definition sha256 (msg : list Z) : list Z :=
  let padded := pad msg in
  let ws := words (length padded) padded in
  flat_map (be_bytes 4) (blocks (length ws) initial_hash ws).

Definition hmac_sha256 (key msg : list Z) : list Z :=
  let k := if 64 <? Z.of_nat (length key) then sha256 key else key in
  let k := k ++ repeat 0 (64 - length k)%nat in
  sha256 (map (Z.lxor 0x5c) k ++ sha256 (map (Z.lxor 0x36) k ++ msg)).

Definition hex_digit (d : Z) : ascii :=
  ascii_of_N (Z.to_N (if d <? 10 then 48 + d else 87 + d)).

Fixpoint hex (bs : list Z) : string :=
  match bs with
  | [] => EmptyString
  | b :: rest => String (hex_digit (b / 16)) (String (hex_digit (b mod 16)) (hex rest))
  end.

Definition Z_of_byte (b : byte) : Z := Z.of_N (Byte.to_N b).

Definition hmac_hex (key : string) (body : list byte) : string :=
  hex (hmac_sha256 (map Z_of_byte (Buffer_from key)) (map Z_of_byte body)).

(** *** A reader for a fragment of JSON

    Objects, arrays, strings without escapes, integers and the three
    literals, over code units below 128.  On such a text the reader returns
    what [JSON.parse] returns; any other text it refuses. *)

Definition quote : ascii := "034"%char.

Fixpoint skip_ws (s : list ascii) : list ascii :=
  match s with
  | c :: rest =>
      if (N_of_ascii c =? 32)%N || (N_of_ascii c =? 9)%N || (N_of_ascii c =? 10)%N
         || (N_of_ascii c =? 13)%N
      then skip_ws rest else s
  | [] => []
  end.

Definition is_digit (c : ascii) : bool := ((48 <=? N_of_ascii c) && (N_of_ascii c <=? 57))%N.

(** The characters of a string up to its closing quote. *)
Fixpoint read_string (s : list ascii) : option (string * list ascii) :=
  match s with
  | [] => None
  | c :: rest =>
      if Ascii.eqb c quote then Some (EmptyString, rest)
      else if (N_of_ascii c <? 32)%N || (127 <? N_of_ascii c)%N || Ascii.eqb c "\"%char then None
      else match read_string rest with
           | Some (str, rest') => Some (String c str, rest')
           | None => None
           end
  end.

Fixpoint read_digits (acc : Z) (s : list ascii) : Z * list ascii :=
  match s with
  | c :: rest =>
      if is_digit c then read_digits (10 * acc + Z.of_N (N_of_ascii c) - 48) rest else (acc, s)
  | [] => (acc, [])
  end.

(** An integer: digits with no leading zero, no fraction and no exponent. *)
Definition read_integer (s : list ascii) : option (Z * list ascii) :=
  match s with
  | c :: rest =>
      if is_digit c then
        let '(n, rest') := read_digits 0 s in
        let leading_zero := Ascii.eqb c "0"%char && negb (length rest' =? length rest)%nat in
        let goes_on :=
          match rest' with
          | d :: _ => Ascii.eqb d "."%char || Ascii.eqb d "e"%char || Ascii.eqb d "E"%char
          | [] => false
          end in
        if leading_zero || goes_on then None else Some (n, rest')
      else None
  | [] => None
  end.

(** [members] with the member [k] set to [v], as a repeated key of a JSON
    text overwrites the earlier one. *)
Fixpoint set_member (k : string) (v : jsval) (members : list (string * jsval))
  : list (string * jsval) :=
  match members with
  | [] => [(k, v)]
  | (k', v') :: rest =>
      if String.eqb k k' then (k, v) :: rest else (k', v') :: set_member k v rest
  end.

Fixpoint read_value (fuel : nat) (s : list ascii) : option (jsval * list ascii) :=
  match fuel with
  | O => None
  | S fuel' =>
      match skip_ws s with
      | "n"%char :: "u"%char :: "l"%char :: "l"%char :: rest => Some (JNull, rest)
      | "t"%char :: "r"%char :: "u"%char :: "e"%char :: rest => Some (JBool true, rest)
      | "f"%char :: "a"%char :: "l"%char :: "s"%char :: "e"%char :: rest => Some (JBool false, rest)
      | "["%char :: rest =>
          match skip_ws rest with
          | "]"%char :: rest' => Some (JArr [], rest')
          | _ =>
              (fix items (n : nat) (s : list ascii) : option (jsval * list ascii) :=
                 match n with
                 | O => None
                 | S n' =>
                     match read_value fuel' s with
                     | Some (v, s1) =>
                         match skip_ws s1 with
                         | ","%char :: s2 =>
                             match items n' s2 with
                             | Some (JArr vs, s3) => Some (JArr (v :: vs), s3)
                             | _ => None
                             end
                         | "]"%char :: s2 => Some (JArr [v], s2)
                         | _ => None
                         end
                     | None => None
                     end
                 end) fuel' rest
          end
      | "{"%char :: rest =>
          match skip_ws rest with
          | "}"%char :: rest' => Some (JObj [], rest')
          | _ =>
              (fix members (n : nat) (acc : list (string * jsval)) (s : list ascii)
                 : option (jsval * list ascii) :=
                 match n with
                 | O => None
                 | S n' =>
                     match skip_ws s with
                     | c :: s0 =>
                         if Ascii.eqb c quote then
                           match read_string s0 with
                           | Some (k, s1) =>
                               match skip_ws s1 with
                               | ":"%char :: s2 =>
                                   match read_value fuel' s2 with
                                   | Some (v, s3) =>
                                       match skip_ws s3 with
                                       | ","%char :: s4 => members n' (set_member k v acc) s4
                                       | "}"%char :: s4 => Some (JObj (set_member k v acc), s4)
                                       | _ => None
                                       end
                                   | None => None
                                   end
                               | _ => None
                               end
                           | None => None
                           end
                         else None
                     | [] => None
                     end
                 end) fuel' [] rest
          end
      | "-"%char :: rest =>
          match read_integer rest with
          | Some (n, rest') => Some (JNum (- n), rest')
          | None => None
          end
      | c :: rest =>
          if Ascii.eqb c quote then
            match read_string rest with
            | Some (str, rest') => Some (JStr str, rest')
            | None => None
            end
          else
            match read_integer (c :: rest) with
            | Some (n, rest') => Some (JNum n, rest')
            | None => None
            end
      | [] => None
      end
  end.

Definition read_json (body : list byte) : option jsval :=
  let s := map ascii_of_byte body in
  match read_value (S (length s)) s with
  | Some (v, rest) => match skip_ws rest with [] => Some v | _ => None end
  | None => None
  end.

(** *** A reader for ISO dates in UTC

    [YYYY-MM-DDTHH:mm:ssZ] and [YYYY-MM-DDTHH:mm:ss.sssZ], the forms
    [toISOString] writes; NaN for any other string. *)

Definition digits (n : nat) (s : list ascii) : option (Z * list ascii) :=
  let ds := take n s in
  if (length ds =? n)%nat && forallb is_digit ds
  then Some (fst (read_digits 0 ds), drop n s) else None.

Definition expect (c : ascii) (s : list ascii) : option (list ascii) :=
  match s with
  | c' :: rest => if Ascii.eqb c c' then Some rest else None
  | [] => None
  end.

Definition leap (y : Z) : bool :=
  (y mod 4 =? 0) && (negb (y mod 100 =? 0) || (y mod 400 =? 0)).

Definition days_in_month (y m : Z) : Z :=
  if m =? 2 then (if leap y then 29 else 28)
  else if (m =? 4) || (m =? 6) || (m =? 9) || (m =? 11) then 30 else 31.

(** Days from 1970-01-01 to the given civil date. *)
Definition days_from_civil (y m d : Z) : Z :=
  let y' := if m <=? 2 then y - 1 else y in
  let era := y' / 400 in
  let yoe := y' - era * 400 in
  let doy := (153 * (if 2 <? m then m - 3 else m + 9) + 2) / 5 + d - 1 in
  let doe := yoe * 365 + yoe / 4 - yoe / 100 + doy in
  era * 146097 + doe - 719468.

Definition read_date (s : list ascii) : option Z :=
  y ← digits 4 s; s ← expect "-"%char y.2;
  mo ← digits 2 s; s ← expect "-"%char mo.2;
  d ← digits 2 s; s ← expect "T"%char d.2;
  h ← digits 2 s; s ← expect ":"%char h.2;
  mi ← digits 2 s; s ← expect ":"%char mi.2;
  se ← digits 2 s;
  ms ← match se.2 with
       | "."%char :: s' => digits 3 s'
       | s' => Some (0, s')
       end;
  match ms.2 with
  | ["Z"%char] =>
      if (1 <=? mo.1) && (mo.1 <=? 12) && (1 <=? d.1) && (d.1 <=? days_in_month y.1 mo.1)
         && (h.1 <=? 23) && (mi.1 <=? 59) && (se.1 <=? 59)
      then Some ((((days_from_civil y.1 mo.1 d.1 * 24 + h.1) * 60 + mi.1) * 60 + se.1) * 1000
                 + ms.1)
      else None
  | _ => None
  end.

Definition read_time (s : string) : number :=
  match read_date (list_ascii_of_string s) with
  | Some t => Num t
  | None => NaN
  end.

(** The reference runtime. *)
Definition runtime : Runtime :=
  {| createHmac_sha256_hex := hmac_hex;
     JSON_parse := read_json;
     Date_parse := read_time |}.

(** A JSON text as a body, written with ['] where the text has the double
    quote. *)
Definition json (text : string) : list byte :=
  map (fun c => byte_of_ascii (if Ascii.eqb c "'"%char then quote else c))
      (list_ascii_of_string text).

(** The request that carries [body] with the signature the holder of
    [secret] computes for it. *)
Definition signed (secret : string) (body : list byte) : Request :=
  {| x_plane_signature := Some (hmac_hex secret body); body := body |}.

End Reference.

(** ** The requests of the examples *)

Module Scenario.
Import Reference.

Definition cfg : Config :=
  {| WebhookSecret := Some "s3cret";
     DiscordWebhookUrl := Some "https://discord.example/api/webhooks/1/token" |}.

(** The sink accepts deliveries. *)
Definition world : Env := {| sink := Replied 204; now := "2024-01-01T00:00:03.000Z" |}.

(** The sink refuses them. *)
Definition outage : Env := {| sink := Replied 503; now := "2024-01-01T00:00:03.000Z" |}.

(** An update of issue 7 at T = 2024-01-01T00:00:00.000Z. *)
Definition first : Request :=
  signed "s3cret"
    (json "{'event':'issue','action':'updated','data':{'id':7,'updated_at':'2024-01-01T00:00:00.000Z','name':'Fix login'}}").

(** The same issue at T + 500 ms, now in state done. *)
Definition second : Request :=
  signed "s3cret"
    (json "{'event':'issue','action':'updated','data':{'id':7,'updated_at':'2024-01-01T00:00:00.500Z','name':'Fix login'},'activity':{'field':'state','new_value':'done','actor':{'display_name':'Ann'}}}").

(** The same issue at T + 1500 ms, at T + 2000 ms and at T - 1000 ms. *)
Definition at_window : Request :=
  signed "s3cret"
    (json "{'event':'issue','action':'updated','data':{'id':7,'updated_at':'2024-01-01T00:00:01.500Z','name':'Fix login'}}").

Definition late : Request :=
  signed "s3cret"
    (json "{'event':'issue','action':'updated','data':{'id':7,'updated_at':'2024-01-01T00:00:02.000Z','name':'Fix login'}}").

Definition early : Request :=
  signed "s3cret"
    (json "{'event':'issue','action':'updated','data':{'id':7,'updated_at':'2023-12-31T23:59:59.000Z','name':'Fix login'}}").

(** The same issue with a date that is none. *)
Definition undated : Request :=
  signed "s3cret"
    (json "{'event':'issue','action':'updated','data':{'id':7,'updated_at':'soon','name':'Fix login'}}").

Definition T : Z := 1704067200000.

Definition envelope (at_ms : Z) (stamp : string) (activity : jsval) : Envelope :=
  {| e_event := JStr "issue";
     e_action := JStr "updated";
     e_data := JObj [("id", JNum 7); ("updated_at", JStr stamp); ("name", JStr "Fix login")];
     e_activity := activity;
     incomingTimestamp := Num at_ms;
     entityId := JNum 7;
     sequenceKey := "issue:7" |}.

Definition first_envelope : Envelope := envelope T "2024-01-01T00:00:00.000Z" JUndefined.

Definition second_envelope : Envelope :=
  envelope (T + 500) "2024-01-01T00:00:00.500Z"
    (JObj [("field", JStr "state"); ("new_value", JStr "done");
           ("actor", JObj [("display_name", JStr "Ann")])]).

Definition at_window_envelope : Envelope :=
  envelope (T + 1500) "2024-01-01T00:00:01.500Z" JUndefined.

Definition late_envelope : Envelope := envelope (T + 2000) "2024-01-01T00:00:02.000Z" JUndefined.

Definition early_envelope : Envelope := envelope (T - 1000) "2023-12-31T23:59:59.000Z" JUndefined.

Definition undated_envelope : Envelope :=
  {| e_event := JStr "issue";
     e_action := JStr "updated";
     e_data := JObj [("id", JNum 7); ("updated_at", JStr "soon"); ("name", JStr "Fix login")];
     e_activity := JUndefined;
     incomingTimestamp := NaN;
     entityId := JNum 7;
     sequenceKey := "issue:7" |}.

(** The first body with no signature, an empty one, one that is too short,
    and one of the right length and the wrong content. *)
Definition unsigned : Request := {| x_plane_signature := None; body := body first |}.

Definition empty_signature : Request := {| x_plane_signature := Some ""; body := body first |}.

Definition short_signature : Request :=
  {| x_plane_signature := Some "deadbeef"; body := body first |}.

Definition forged : Request :=
  {| x_plane_signature :=
       Some "0000000000000000000000000000000000000000000000000000000000000000";
     body := body first |}.

(** Signed bodies that are no envelope: no JSON, [null], no [data] member. *)
Definition garbled : Request := signed "s3cret" (json "{'event':'issue'").

Definition null_body : Request := signed "s3cret" (json "null").

Definition no_data : Request := signed "s3cret" (json "{'event':'issue','action':'updated'}").

(** A signed body with [event], [action] and an empty [data]: no [id], no
    [updated_at], no [name]. *)
Definition bare : Request :=
  signed "s3cret" (json "{'event':'issue','action':'updated','data':{}}").

(** A signed body with no [event]. *)
Definition no_event : Request :=
  signed "s3cret"
    (json "{'action':'updated','data':{'id':7,'updated_at':'2024-01-01T00:00:00.000Z','name':'Fix login'}}").

(** Two creations of issue 7 at T that differ in everything else: the name,
    the activity, the actor. *)
Definition original_a : Request :=
  signed "s3cret"
    (json "{'event':'issue','action':'created','data':{'id':7,'updated_at':'2024-01-01T00:00:00.000Z','name':'Alpha'},'activity':{'field':'priority','new_value':'high','actor':{'display_name':'Ann'}}}").

Definition original_b : Request :=
  signed "s3cret"
    (json "{'event':'issue','action':'created','data':{'id':7,'updated_at':'2024-01-01T00:00:00.000Z','name':'Beta'},'activity':{'field':'assignee','actor':{'display_name':'Bob'}}}").

Definition bare_envelope : Envelope :=
  {| e_event := JStr "issue";
     e_action := JStr "updated";
     e_data := JObj [];
     e_activity := JUndefined;
     incomingTimestamp := NaN;
     entityId := JUndefined;
     sequenceKey := "issue:undefined" |}.

(** The record the first request leaves, and the store that holds it. *)
Definition pending : PendingRecord := {| timestamp := Num T; action := JStr "updated" |}.

Definition cached : Store :=
  {| sequenceMap := {[ "issue:7" := pending ]};
     timers := [{| timer_key := "issue:7"; timer_stamp := Num T |}] |}.

(** The store after [late] reset the record of [cached], and after its one
    timer fired. *)
Definition reset_record : PendingRecord :=
  {| timestamp := Num (T + 2000); action := JStr "updated" |}.

Definition after_reset : Store :=
  {| sequenceMap := {[ "issue:7" := reset_record ]};
     timers := [{| timer_key := "issue:7"; timer_stamp := Num T |}] |}.

Definition orphaned : Store := {| sequenceMap := {[ "issue:7" := reset_record ]}; timers := [] |}.

(** The store after [no_event] was cached. *)
Definition no_event_cached : Store :=
  {| sequenceMap := {[ "undefined:7" := pending ]};
     timers := [{| timer_key := "undefined:7"; timer_stamp := Num T |}] |}.

(** The store after [undated] was cached. *)
Definition undated_record : PendingRecord := {| timestamp := NaN; action := JStr "updated" |}.

Definition undated_cached : Store :=
  {| sequenceMap := {[ "issue:7" := undated_record ]};
     timers := [{| timer_key := "issue:7"; timer_stamp := NaN |}] |}.

(** The embed [second] is answered with. *)
Definition done_embed : Embed :=
  {| title := "ISSUE UPDATED";
     description := "**Entity:** Fix login";
     color := 5282794;
     fields :=
       [ {| name := "Type"; value := JStr "state"; inline := Some true |};
         {| name := "By"; value := JStr "Ann"; inline := Some true |};
         {| name := "Content"; value := JStr "Issue is now in DONE"; inline := None |} ];
     embed_timestamp := "2024-01-01T00:00:03.000Z" |}.

End Scenario.

(** * Properties *)

(** ** Numbers *)

Lemma num_strict_eq_true (a b : number) :
  num_strict_eq a b = true <-> exists z, a = Num z /\ b = Num z.
Proof.
  destruct a as [|x], b as [|y]; simpl; split; try discriminate;
    try (intros (z & H1 & H2); discriminate).
  - intros H. apply Z.eqb_eq in H. subst. eauto.
  - intros (z & H1 & H2). inversion H1. inversion H2. subst. apply Z.eqb_refl.
Qed.

Lemma num_strict_eq_NaN_l (b : number) : num_strict_eq NaN b = false.
Proof. reflexivity. Qed.

Lemma num_strict_eq_NaN_r (a : number) : num_strict_eq a NaN = false.
Proof. destruct a; reflexivity. Qed.

Lemma in_window_true (incoming cached : number) :
  in_window incoming cached = true <->
  exists x y, incoming = Num x /\ cached = Num y /\ 0 <= x - y < 1500.
Proof.
  unfold in_window, WINDOW_MS.
  destruct incoming as [|x], cached as [|y]; simpl; split; try discriminate;
    try (intros (x' & y' & Hx & Hy & _); discriminate).
  - intros H. apply andb_true_iff in H as [H1 H2].
    apply Z.leb_le in H1. apply Z.ltb_lt in H2. exists x, y. auto.
  - intros (x' & y' & Hx & Hy & H1 & H2). inversion Hx. inversion Hy. subst.
    apply andb_true_iff. split; [apply Z.leb_le | apply Z.ltb_lt]; assumption.
Qed.

Lemma in_window_NaN_r (incoming : number) : in_window incoming NaN = false.
Proof. destruct incoming; reflexivity. Qed.

Lemma in_window_NaN_l (cached : number) : in_window NaN cached = false.
Proof. reflexivity. Qed.

(** ** The expiry callback *)

Lemma expiry_no_record (t : Timer) (m : gmap string PendingRecord) :
  m !! timer_key t = None -> expiry t m = m.
Proof. intros H. unfold expiry. rewrite H. reflexivity. Qed.

Lemma expiry_other_stamp (t : Timer) (m : gmap string PendingRecord) (r : PendingRecord) :
  m !! timer_key t = Some r -> num_strict_eq (timestamp r) (timer_stamp t) = false ->
  expiry t m = m.
Proof. intros H E. unfold expiry. rewrite H, E. reflexivity. Qed.

Lemma expiry_same_stamp (t : Timer) (m : gmap string PendingRecord) (r : PendingRecord) :
  m !! timer_key t = Some r -> num_strict_eq (timestamp r) (timer_stamp t) = true ->
  expiry t m = delete (timer_key t) m.
Proof. intros H E. unfold expiry. rewrite H, E. reflexivity. Qed.

Lemma expiry_other_key (t : Timer) (m : gmap string PendingRecord) (k : string) :
  k <> timer_key t -> expiry t m !! k = m !! k.
Proof.
  intros Hk. unfold expiry.
  destruct (m !! timer_key t) as [r|]; [|reflexivity].
  destruct (num_strict_eq _ _); [|reflexivity].
  apply lookup_delete_ne. congruence.
Qed.

(** A record stamped NaN survives every timer. *)
Lemma expiry_keeps_NaN (t : Timer) (m : gmap string PendingRecord) (k : string)
      (r : PendingRecord) :
  m !! k = Some r -> timestamp r = NaN -> expiry t m !! k = Some r.
Proof.
  intros H Hr. destruct (decide (k = timer_key t)) as [->|Hk].
  - rewrite (expiry_other_stamp t m r H); [assumption|].
    rewrite Hr. reflexivity.
  - rewrite expiry_other_key; assumption.
Qed.

(** ** The correlation step *)

(** [observe], branch by branch. *)
Lemma observe_spec (key : string) (t : number) (a : jsval) (s : Store) :
  observe key t a s =
  match sequenceMap s !! key with
  | None =>
      {| completion := Normal Cached;
         store := {| sequenceMap := <[key := {| timestamp := t; action := a |}]> (sequenceMap s);
                     timers := timers s ++ [{| timer_key := key; timer_stamp := t |}] |};
         trace := [] |}
  | Some r =>
      if in_window t (timestamp r) then
        {| completion := Normal (Completed r);
           store := {| sequenceMap := delete key (sequenceMap s); timers := timers s |};
           trace := [] |}
      else
        {| completion := Normal Reset;
           store := {| sequenceMap := <[key := {| timestamp := t; action := a |}]> (sequenceMap s);
                       timers := timers s |};
           trace := [] |}
  end.
Proof.
  unfold observe, bind, Map_get. simpl.
  destruct (sequenceMap s !! key) as [r|]; simpl.
  - unfold in_window. destruct (_ && _); reflexivity.
  - reflexivity.
Qed.

Lemma entries_of_absent_key (k : string) (l : list (string * PendingRecord)) :
  k ∉ l.*1 -> filter (fun kv => kv.1 = k) l = [].
Proof.
  induction l as [|[k' v] l IH]; simpl; intros Hk; [reflexivity|].
  apply not_elem_of_cons in Hk as [Hne Hk].
  rewrite filter_cons. simpl. destruct (decide (k' = k)); [congruence|]. apply IH, Hk.
Qed.

(** A list of entries with distinct keys holds at most one entry per key. *)
Lemma entries_of_key_le_1 (k : string) (l : list (string * PendingRecord)) :
  NoDup l.*1 -> (length (filter (fun kv => kv.1 = k) l) <= 1)%nat.
Proof.
  induction l as [|[k' v] l IH]; simpl; intros Hnd; [lia|].
  apply NoDup_cons in Hnd as [Hnotin Hnd].
  rewrite filter_cons. simpl. destruct (decide (k' = k)) as [->|Hne].
  - rewrite entries_of_absent_key by assumption. simpl. lia.
  - apply IH, Hnd.
Qed.

Lemma table_at_most_one (k : string) (m : gmap string PendingRecord) :
  (length (filter (fun kv => kv.1 = k) (map_to_list m)) <= 1)%nat.
Proof. apply entries_of_key_le_1, NoDup_fst_map_to_list. Qed.

(** ** The handler's monad *)

(** A step that returns without an effect hands its value and store on. *)
Lemma bind_silent {A B : Type} (m : M A) (k : A -> M B) (s : Store) (a : A) (s' : Store) :
  m s = {| completion := Normal a; store := s'; trace := [] |} -> bind m k s = k a s'.
Proof. intros H. unfold bind. rewrite H. simpl. destruct (k a s'); reflexivity. Qed.

(** A step that throws ends the sequence. *)
Lemma bind_throws {A B : Type} (m : M A) (k : A -> M B) (s : Store) (x : Exn) (s' : Store)
      (t : list Effect) :
  m s = {| completion := Throw x; store := s'; trace := t |} ->
  bind m k s = {| completion := Throw x; store := s'; trace := t |}.
Proof. intros H. unfold bind. rewrite H. reflexivity. Qed.

(** ** The handler, stage by stage *)

Section HandlerFacts.
Context `{RT : Runtime} (cfg : Config).

(** The signature check never faults, never touches the store, and calls the
    comparator only on buffers of one length. *)
Lemma verify_spec (req : Request) (s : Store) :
  verify cfg req s =
  match present (WebhookSecret cfg), present (x_plane_signature req) with
  | Some secret, Some provided =>
      let eb := Buffer_from (createHmac_sha256_hex secret (body req)) in
      let pb := Buffer_from provided in
      if (length eb =? length pb)%nat then
        {| completion := Normal (if bool_decide (eb = pb) then Authentic else Rejected forbidden);
           store := s; trace := [Compare eb pb] |}
      else {| completion := Normal (Rejected forbidden); store := s; trace := [] |}
  | _, _ => {| completion := Normal (Rejected unauthorized); store := s; trace := [] |}
  end.
Proof.
  unfold verify.
  destruct (present (WebhookSecret cfg)) as [secret|]; [|reflexivity].
  destruct (present (x_plane_signature req)) as [provided|]; [|reflexivity].
  cbv zeta. unfold bind, tell, liftC, timingSafeEqual, ret.
  destruct (length _ =? length _)%nat; simpl.
  - destruct (bool_decide _); reflexivity.
  - reflexivity.
Qed.

Lemma deliver_spec (payload : Embed) (env : Env) (s : Store) :
  deliver cfg payload env s =
  {| completion :=
       match DiscordWebhookUrl cfg, sink env with
       | Some _, Replied code =>
           if (200 <=? code) && (code <=? 299)
           then Normal {| status := 200; text := "Sequence complete" |}
           else Throw (Error ("Discord API error: " +:+ pretty code))
       | _, _ => Throw TypeError
       end;
     store := s;
     trace := [Fetch (DiscordWebhookUrl cfg) payload] |}.
Proof.
  unfold deliver, bind, tell, liftC, ret. simpl.
  destruct (DiscordWebhookUrl cfg); [|reflexivity].
  destruct (sink env) as [code|]; [|reflexivity].
  destruct (_ && _); reflexivity.
Qed.

Lemma relay_spec (RequestBody : list byte) (env : Env) (s : Store) :
  relay cfg RequestBody env s =
  match parseEnvelope RequestBody with
  | Throw x => {| completion := Throw x; store := s; trace := [] |}
  | Normal e =>
      match sequenceMap s !! sequenceKey e with
      | None =>
          {| completion := Normal {| status := 200; text := "Initial event cached" |};
             store := observed e s; trace := [] |}
      | Some r =>
          if in_window (incomingTimestamp e) (timestamp r) then
            match buildEmbed e (now env) with
            | Throw x => {| completion := Throw x; store := observed e s; trace := [] |}
            | Normal payload => deliver cfg payload env (observed e s)
            end
          else
            {| completion := Normal {| status := 200; text := "Window reset" |};
               store := observed e s; trace := [] |}
      end
  end.
Proof.
  unfold relay, observed.
  destruct (parseEnvelope RequestBody) as [e|x].
  2: { apply bind_throws. reflexivity. }
  rewrite (bind_silent _ _ s e s) by reflexivity.
  pose proof (observe_spec (sequenceKey e) (incomingTimestamp e) (e_action e) s) as Ho.
  destruct (sequenceMap s !! sequenceKey e) as [r|].
  2: { rewrite (bind_silent _ _ _ _ _ Ho), Ho. reflexivity. }
  destruct (in_window _ _).
  2: { rewrite (bind_silent _ _ _ _ _ Ho), Ho. reflexivity. }
  rewrite (bind_silent _ _ _ _ _ Ho), Ho. cbn [store].
  destruct (buildEmbed e (now env)) as [payload|x].
  - rewrite (bind_silent _ _ _ payload _) by reflexivity. reflexivity.
  - apply bind_throws. reflexivity.
Qed.

Lemma webhook_try_spec (req : Request) (env : Env) (s : Store) :
  webhook_try cfg req env s =
  let v := verify cfg req s in
  match completion v with
  | Normal Authentic =>
      let o := relay cfg (body req) env s in
      {| completion := completion o; store := store o; trace := trace v ++ trace o |}
  | Normal (Rejected r) => {| completion := Normal r; store := s; trace := trace v |}
  | Throw x => {| completion := Throw x; store := s; trace := trace v |}
  end.
Proof.
  unfold webhook_try, bind. rewrite verify_spec. cbv zeta.
  destruct (present (WebhookSecret cfg)); [|simpl; reflexivity].
  destruct (present (x_plane_signature req)); [|simpl; reflexivity].
  destruct (length _ =? length _)%nat; [|simpl; reflexivity].
  simpl. destruct (bool_decide _); simpl; reflexivity.
Qed.

Lemma catch_deliver (payload : Embed) (env : Env) (s : Store) :
  catch (deliver cfg payload env s) =
  {| response := if sink_ok cfg env then {| status := 200; text := "Sequence complete" |}
                 else internal_error;
     after := s;
     effects := Fetch (DiscordWebhookUrl cfg) payload
                :: (if sink_ok cfg env then [] else [ConsoleError (delivery_fault cfg env)]) |}.
Proof.
  rewrite deliver_spec. unfold catch, sink_ok, delivery_fault. cbn [completion store trace].
  destruct (DiscordWebhookUrl cfg); [|reflexivity].
  destruct (sink env) as [code|]; [|reflexivity].
  destruct (_ && _); reflexivity.
Qed.

(** The handler on a request that passed the signature check. *)
Lemma catch_relay (RequestBody : list byte) (env : Env) (s : Store) :
  catch (relay cfg RequestBody env s) =
  match parseEnvelope RequestBody with
  | Throw x => {| response := internal_error; after := s; effects := [ConsoleError x] |}
  | Normal e =>
      match sequenceMap s !! sequenceKey e with
      | None =>
          {| response := {| status := 200; text := "Initial event cached" |};
             after := observed e s; effects := [] |}
      | Some r =>
          if in_window (incomingTimestamp e) (timestamp r) then
            match buildEmbed e (now env) with
            | Throw x =>
                {| response := internal_error; after := observed e s;
                   effects := [ConsoleError x] |}
            | Normal payload => catch (deliver cfg payload env (observed e s))
            end
          else
            {| response := {| status := 200; text := "Window reset" |};
               after := observed e s; effects := [] |}
      end
  end.
Proof.
  rewrite relay_spec.
  destruct (parseEnvelope RequestBody) as [e|x]; [|reflexivity].
  destruct (sequenceMap s !! sequenceKey e) as [r|]; [|reflexivity].
  destruct (in_window _ _); [|reflexivity].
  destruct (buildEmbed e (now env)); reflexivity.
Qed.

(** The handler, from the signature check on. *)
Lemma webhook_spec (req : Request) (env : Env) (s : Store) :
  webhook cfg req env s =
  match present (WebhookSecret cfg), present (x_plane_signature req) with
  | Some secret, Some provided =>
      let eb := Buffer_from (createHmac_sha256_hex secret (body req)) in
      let pb := Buffer_from provided in
      if (length eb =? length pb)%nat then
        if bool_decide (eb = pb) then
          let w := catch (relay cfg (body req) env s) in
          {| response := response w; after := after w; effects := Compare eb pb :: effects w |}
        else {| response := forbidden; after := s; effects := [Compare eb pb] |}
      else {| response := forbidden; after := s; effects := [] |}
  | _, _ => {| response := unauthorized; after := s; effects := [] |}
  end.
Proof.
  unfold webhook. rewrite webhook_try_spec, verify_spec. cbv zeta.
  destruct (present (WebhookSecret cfg)); [|reflexivity].
  destruct (present (x_plane_signature req)); [|reflexivity].
  destruct (length _ =? length _)%nat; [|reflexivity].
  destruct (bool_decide _); [|reflexivity].
  cbn [completion store trace]. unfold catch. cbn [completion store trace].
  destruct (completion (relay cfg (body req) env s)); reflexivity.
Qed.

(** A request that is not authentic is answered 401 or 403 and changes
    nothing. *)
Lemma webhook_rejects (req : Request) (env : Env) (s : Store) :
  authentic cfg req = false ->
  let w := webhook cfg req env s in
  (status (response w) = 401 \/ status (response w) = 403) /\ after w = s
  /\ forallb is_compare (effects w) = true.
Proof.
  unfold authentic. rewrite webhook_spec. cbv zeta.
  destruct (present (WebhookSecret cfg)); [|simpl; auto].
  destruct (present (x_plane_signature req)); [|simpl; auto].
  destruct (length _ =? length _)%nat eqn:Hlen.
  - intros ->. simpl. auto.
  - intros _. simpl. auto.
Qed.

(** An authentic request gets one comparison, then the relay. *)
Lemma webhook_relays (req : Request) :
  authentic cfg req = true ->
  exists eb, forall env s,
    webhook cfg req env s =
    let w := catch (relay cfg (body req) env s) in
    {| response := response w; after := after w; effects := Compare eb eb :: effects w |}.
Proof.
  unfold authentic.
  destruct (present (WebhookSecret cfg)) as [secret|] eqn:Hk; [|discriminate].
  destruct (present (x_plane_signature req)) as [provided|] eqn:Hp; [|discriminate].
  intros H. exists (Buffer_from provided). intros env s.
  rewrite webhook_spec, Hk, Hp. cbv zeta. rewrite H.
  apply bool_decide_eq_true in H. rewrite H.
  rewrite Nat.eqb_refl. reflexivity.
Qed.

End HandlerFacts.

(** ** What an authentic event does to the table *)

Section Correlation.
Context `{RT : Runtime} (cfg : Config).

(** The decision and the table after [observe], case by case. *)
Lemma observe_cases (key : string) (t : number) (a : jsval) (s : Store) :
  let o := observe key t a s in
  let obs := {| timestamp := t; action := a |} in
  match sequenceMap s !! key with
  | None =>
      completion o = Normal Cached
      /\ sequenceMap (store o) = <[key := obs]> (sequenceMap s)
      /\ timers (store o) = timers s ++ [{| timer_key := key; timer_stamp := t |}]
  | Some r =>
      if in_window t (timestamp r) then
        completion o = Normal (Completed r)
        /\ sequenceMap (store o) = delete key (sequenceMap s)
        /\ timers (store o) = timers s
      else
        completion o = Normal Reset
        /\ sequenceMap (store o) = <[key := obs]> (sequenceMap s)
        /\ timers (store o) = timers s
  end.
Proof.
  cbv zeta. rewrite observe_spec.
  destruct (sequenceMap s !! key) as [r|]; [destruct (in_window _ _)|]; simpl; auto.
Qed.

(** [observe] always returns, silently. *)
Lemma observe_returns (key : string) (t : number) (a : jsval) (s : Store) :
  exists d, completion (observe key t a s) = Normal d /\ trace (observe key t a s) = [].
Proof.
  rewrite observe_spec.
  destruct (sequenceMap s !! key) as [r|]; [destruct (in_window _ _)|]; simpl; eauto.
Qed.

(** An authentic request whose envelope parses leaves the store [observe]
    leaves, whatever the delivery comes to. *)
Lemma webhook_after_authentic (req : Request) (env : Env) (s : Store) (e : Envelope) :
  authentic cfg req = true -> parseEnvelope (body req) = Normal e ->
  after (webhook cfg req env s) = observed e s.
Proof.
  intros Ha He. destruct (webhook_relays cfg req Ha) as [eb Hw]. rewrite Hw.
  cbv zeta. cbn [after]. rewrite catch_relay, He.
  destruct (sequenceMap s !! sequenceKey e) as [r|]; [|reflexivity].
  destruct (in_window _ _); [|reflexivity].
  destruct (buildEmbed e (now env)); [|reflexivity].
  rewrite catch_deliver. reflexivity.
Qed.

(** An authentic request whose envelope does not parse leaves the store
    alone. *)
Lemma webhook_after_unparsed (req : Request) (env : Env) (s : Store) (x : Exn) :
  authentic cfg req = true -> parseEnvelope (body req) = Throw x ->
  webhook cfg req env s =
  {| response := internal_error; after := s;
     effects := effects (webhook cfg req env s) |}
  /\ forallb is_fetch (effects (webhook cfg req env s)) = false.
Proof.
  intros Ha He. destruct (webhook_relays cfg req Ha) as [eb Hw]. rewrite Hw.
  cbv zeta. rewrite catch_relay, He. simpl. auto.
Qed.

Lemma decision_of_authentic (req : Request) (s : Store) (e : Envelope) :
  authentic cfg req = true -> parseEnvelope (body req) = Normal e ->
  decision_of cfg req s =
  match sequenceMap s !! sequenceKey e with
  | None => Some Cached
  | Some r => if in_window (incomingTimestamp e) (timestamp r) then Some (Completed r)
              else Some Reset
  end.
Proof.
  intros Ha He. unfold decision_of. rewrite Ha, He, observe_spec.
  destruct (sequenceMap s !! sequenceKey e) as [r|]; [destruct (in_window _ _)|]; reflexivity.
Qed.

(** C1: for every authenticated request (one whose envelope is read), the
    decision on a key with no pending record is Cached and the table then
    holds exactly that observation under the key; on a key with a pending
    record it is Completed, and the record is deleted, when
    0 <= delta < 1500 for delta the incoming timestamp minus the cached one
    (so delta = 0 matches and delta = 1500 does not); in every other case
    (delta negative, delta >= 1500, or a timestamp that is no number) it is
    Reset and the table holds exactly the new observation; in every case the
    table holds at most one record for the key afterwards. *)
Theorem observe_decision_and_table (req : Request) (env : Env) (s : Store) (e : Envelope) :
  authentic cfg req = true ->
  parseEnvelope (body req) = Normal e ->
  let key := sequenceKey e in
  let obs := {| timestamp := incomingTimestamp e; action := e_action e |} in
  let m := sequenceMap s in
  let m' := sequenceMap (after (webhook cfg req env s)) in
  (m !! key = None ->
     decision_of cfg req s = Some Cached /\ m' = <[key := obs]> m /\ m' !! key = Some obs)
  /\ (forall r x y,
        m !! key = Some r -> incomingTimestamp e = Num x -> timestamp r = Num y ->
        0 <= x - y < 1500 ->
        decision_of cfg req s = Some (Completed r) /\ m' = delete key m /\ m' !! key = None)
  /\ (forall r,
        m !! key = Some r ->
        ~ (exists x y, incomingTimestamp e = Num x /\ timestamp r = Num y /\ 0 <= x - y < 1500) ->
        decision_of cfg req s = Some Reset /\ m' = <[key := obs]> m /\ m' !! key = Some obs)
  /\ (length (filter (fun kv => kv.1 = key) (map_to_list m')) <= 1)%nat.
Proof.
  intros Ha He key obs m m'.
  assert (Hm' : m' = sequenceMap (observed e s)).
  { unfold m'. rewrite (webhook_after_authentic req env s e Ha He). reflexivity. }
  pose proof (observe_cases key (incomingTimestamp e) (e_action e) s) as Hc.
  pose proof (decision_of_authentic req s e Ha He) as Hd.
  cbv zeta in Hc. fold m key in Hc, Hd. fold obs in Hc.
  unfold observed in Hm'. fold key in Hm'.
  split; [|split; [|split]].
  - intros Hfree. rewrite Hfree in Hc, Hd. destruct Hc as (_ & Heq & _).
    rewrite Hm', Heq. split; [exact Hd|]. split; [reflexivity|apply lookup_insert_eq].
  - intros r x y Hr Hx Hy Hxy. rewrite Hr in Hc, Hd.
    assert (Hw : in_window (incomingTimestamp e) (timestamp r) = true).
    { apply in_window_true. exists x, y. auto. }
    rewrite Hw in Hc, Hd. destruct Hc as (_ & Heq & _).
    rewrite Hm', Heq. split; [exact Hd|]. split; [reflexivity|apply lookup_delete_eq].
  - intros r Hr Hout. rewrite Hr in Hc, Hd.
    destruct (in_window (incomingTimestamp e) (timestamp r)) eqn:Hw.
    { exfalso. apply Hout. apply in_window_true. exact Hw. }
    destruct Hc as (_ & Heq & _).
    rewrite Hm', Heq. split; [exact Hd|]. split; [reflexivity|apply lookup_insert_eq].
  - apply table_at_most_one.
Qed.

End Correlation.


(** ** Expiry *)

(** C3: when a scheduled expiry fires it removes the record of its key only
    if the record then present has the timestamp of the record whose
    insertion scheduled it (the timer of a first-seen event carries exactly
    the timestamp it stored); if the record was consumed (none is present) or
    replaced by a record with another timestamp, the expiry changes nothing,
    and it never touches another key. *)
Theorem expiry_removes_only_its_own_record (t : Timer) (m : gmap string PendingRecord) :
  (forall k, expiry t m !! k <> m !! k ->
     k = timer_key t /\ expiry t m !! k = None
     /\ exists r z, m !! k = Some r /\ timestamp r = Num z /\ timer_stamp t = Num z)
  /\ (m !! timer_key t = None -> expiry t m = m)
  /\ (forall r, m !! timer_key t = Some r -> timestamp r <> timer_stamp t -> expiry t m = m)
  /\ (forall r z, m !! timer_key t = Some r -> timestamp r = Num z -> timer_stamp t = Num z ->
        expiry t m = delete (timer_key t) m)
  /\ (forall key stamp a s,
        sequenceMap s !! key = None ->
        let o := observe key stamp a s in
        sequenceMap (store o) !! key = Some {| timestamp := stamp; action := a |}
        /\ timers (store o) = timers s ++ [{| timer_key := key; timer_stamp := stamp |}]).
Proof.
  split; [|split; [|split; [|split]]].
  - intros k Hk. destruct (decide (k = timer_key t)) as [->|Hne].
    2: { exfalso. apply Hk. apply expiry_other_key. exact Hne. }
    split; [reflexivity|].
    destruct (m !! timer_key t) as [r|] eqn:Hr.
    2: { exfalso. apply Hk. rewrite (expiry_no_record t m Hr). exact Hr. }
    destruct (num_strict_eq (timestamp r) (timer_stamp t)) eqn:Heq.
    2: { exfalso. apply Hk. rewrite (expiry_other_stamp t m r Hr Heq). exact Hr. }
    rewrite (expiry_same_stamp t m r Hr Heq). split; [apply lookup_delete_eq|].
    apply num_strict_eq_true in Heq as (z & Hz1 & Hz2). eauto.
  - apply expiry_no_record.
  - intros r Hr Hne. apply (expiry_other_stamp t m r Hr).
    destruct (num_strict_eq (timestamp r) (timer_stamp t)) eqn:Heq; [|reflexivity].
    apply num_strict_eq_true in Heq as (z & Hz1 & Hz2). congruence.
  - intros r z Hr Hz1 Hz2. apply (expiry_same_stamp t m r Hr).
    apply num_strict_eq_true. eauto.
  - intros key stamp a s Hnone. cbv zeta.
    pose proof (observe_cases key stamp a s) as Hc. cbv zeta in Hc. rewrite Hnone in Hc.
    destruct Hc as (_ & Hm & Ht). rewrite Hm, Ht. split; [apply lookup_insert_eq|reflexivity].
Qed.

(** ** Rejected requests *)

Section Rejection.
Context `{RT : Runtime} (cfg : Config).

Lemma present_Some (v : option string) (s : string) :
  present v = Some s <-> v = Some s /\ s <> "".
Proof.
  unfold present. destruct v as [s'|]; [|split; [discriminate|intros [? _]; discriminate]].
  destruct (String.eqb s' "") eqn:He.
  - apply String.eqb_eq in He. subst. split; [discriminate|].
    intros [H1 H2]. inversion H1. congruence.
  - apply String.eqb_neq in He. split.
    + intros H. inversion H. subst. auto.
    + intros [H1 _]. exact H1.
Qed.

(** A server that started has its secret and its sink. *)
Lemma startup_present (c : Config) :
  startup c = Normal tt ->
  exists secret url,
    present (WebhookSecret c) = Some secret /\ present (DiscordWebhookUrl c) = Some url.
Proof.
  unfold startup. destruct (present (WebhookSecret c)) as [secret|]; [|discriminate].
  destruct (present (DiscordWebhookUrl c)) as [url|]; [eauto|discriminate].
Qed.

Lemma present_None (v : option string) : present v = None <-> v = None \/ v = Some "".
Proof.
  unfold present. destruct v as [s'|]; [|split; auto].
  destruct (String.eqb s' "") eqn:He.
  - apply String.eqb_eq in He. subst. split; auto.
  - apply String.eqb_neq in He. split; [discriminate|].
    intros [H|H]; [discriminate|]. inversion H. congruence.
Qed.

(** Past the signature check the handler answers 200 or 500. *)
Lemma relay_status (RequestBody : list byte) (env : Env) (s : Store) :
  status (response (catch (relay cfg RequestBody env s))) = 200
  \/ status (response (catch (relay cfg RequestBody env s))) = 500.
Proof.
  rewrite catch_relay.
  destruct (parseEnvelope RequestBody) as [e|x]; [|right; reflexivity].
  destruct (sequenceMap s !! sequenceKey e) as [r|]; [|left; reflexivity].
  destruct (in_window _ _); [|left; reflexivity].
  destruct (buildEmbed e (now env)) as [payload|x]; [|right; reflexivity].
  rewrite catch_deliver. cbn [response]. destruct (sink_ok cfg env); [left|right]; reflexivity.
Qed.

(** C9: a request the signature check rejects (answered 401 or 403) leaves
    the pending-record table as it was: no record is inserted, deleted or
    overwritten, no expiry is scheduled, and nothing is sent to the sink. *)
Theorem rejected_request_leaves_store (req : Request) (env : Env) (s : Store) :
  status (response (webhook cfg req env s)) = 401
  \/ status (response (webhook cfg req env s)) = 403 ->
  after (webhook cfg req env s) = s
  /\ sequenceMap (after (webhook cfg req env s)) = sequenceMap s
  /\ timers (after (webhook cfg req env s)) = timers s
  /\ forallb (fun e => negb (is_fetch e)) (effects (webhook cfg req env s)) = true.
Proof.
  intros Hst.
  destruct (authentic cfg req) eqn:Ha.
  - exfalso. destruct (webhook_relays cfg req Ha) as [eb Hw]. specialize (Hw env s).
    rewrite Hw in Hst. cbv zeta in Hst. cbn [response] in Hst.
    destruct (relay_status (body req) env s) as [H|H]; rewrite H in Hst;
      destruct Hst; discriminate.
  - pose proof (webhook_rejects cfg req env s Ha) as (_ & Hs & Hc). cbv zeta in Hs, Hc.
    rewrite Hs. repeat split.
    revert Hc. generalize (effects (webhook cfg req env s)) as l.
    induction l as [|e l IH]; simpl; [reflexivity|].
    intros H. apply andb_true_iff in H as [H1 H2].
    destruct e; try discriminate. simpl. apply IH, H2.
Qed.

End Rejection.

(** ** The signature check *)

Section Verification.
Context `{RT : Runtime} (cfg : Config).

(** C4, as the code has it: a request whose presented signature is not
    empty and differs in byte length from the expected digest is answered 403
    without a call of the comparator, with nothing logged and the store
    untouched; an absent or empty signature is answered 401, likewise without
    a call; and on no request at all is the comparator applied to buffers of
    different lengths, so it never faults. *)
Theorem length_mismatch_never_compared (req : Request) (env : Env) (s : Store) :
  (forall secret provided,
     present (WebhookSecret cfg) = Some secret ->
     x_plane_signature req = Some provided -> provided <> "" ->
     length (Buffer_from provided)
       <> length (Buffer_from (createHmac_sha256_hex secret (body req))) ->
     webhook cfg req env s = {| response := forbidden; after := s; effects := [] |})
  /\ (x_plane_signature req = None \/ x_plane_signature req = Some "" ->
      webhook cfg req env s = {| response := unauthorized; after := s; effects := [] |})
  /\ (forall a b, In (Compare a b) (effects (webhook cfg req env s)) ->
        length a = length b /\ exists same, timingSafeEqual a b = Normal same).
Proof.
  split; [|split].
  - intros secret provided Hk Hp Hne Hlen.
    rewrite webhook_spec, Hk. rewrite (proj2 (present_Some _ provided) (conj Hp Hne)).
    cbv zeta. destruct (length _ =? length _)%nat eqn:E; [|reflexivity].
    apply Nat.eqb_eq in E. congruence.
  - intros Hp. apply present_None in Hp. rewrite webhook_spec, Hp.
    destruct (present (WebhookSecret cfg)); reflexivity.
  - intros a b Hin. rewrite webhook_spec in Hin.
    destruct (present (WebhookSecret cfg)) as [secret|]; [|destruct Hin].
    destruct (present (x_plane_signature req)) as [provided|]; [|destruct Hin].
    cbv zeta in Hin. destruct (length _ =? length _)%nat eqn:E; [|destruct Hin].
    apply Nat.eqb_eq in E.
    assert (Hab : Compare a b
                  = Compare (Buffer_from (createHmac_sha256_hex secret (body req)))
                            (Buffer_from provided)).
    { destruct (bool_decide _).
      - cbn [effects] in Hin. destruct Hin as [Hin|Hin]; [symmetry; exact Hin|].
        exfalso. rewrite catch_relay in Hin.
        destruct (parseEnvelope (body req)) as [e|x].
        2: { destruct Hin as [Hin|[]]. discriminate. }
        destruct (sequenceMap s !! sequenceKey e) as [r|]; [|destruct Hin].
        destruct (in_window _ _); [|destruct Hin].
        destruct (buildEmbed e (now env)) as [payload|x].
        2: { destruct Hin as [Hin|[]]. discriminate. }
        rewrite catch_deliver in Hin. cbn [effects] in Hin.
        destruct Hin as [Hin|Hin]; [discriminate|].
        destruct (sink_ok cfg env); [destruct Hin|].
        destruct Hin as [Hin|[]]. discriminate.
      - destruct Hin as [Hin|[]]. symmetry. exact Hin. }
    inversion Hab. subst a b. split; [exact E|].
    unfold timingSafeEqual. rewrite (proj2 (Nat.eqb_eq _ _) E). eauto.
Qed.

(** C5, as the code has it: an absent (or empty) secret or presented
    signature is answered 401; a signature of another length or content,
    403; a payload that does not parse, or that has no [data] member to read
    (the member is missing or null, or the payload is no object), 500 with no
    delivery attempted and the store untouched; and a delivery the sink does
    not accept, 500. *)
Theorem status_taxonomy (req : Request) (env : Env) (s : Store) :
  (present (WebhookSecret cfg) = None \/ present (x_plane_signature req) = None ->
     response (webhook cfg req env s) = unauthorized)
  /\ (forall secret provided,
        present (WebhookSecret cfg) = Some secret ->
        present (x_plane_signature req) = Some provided ->
        Buffer_from provided <> Buffer_from (createHmac_sha256_hex secret (body req)) ->
        response (webhook cfg req env s) = forbidden)
  /\ (authentic cfg req = true ->
      JSON_parse (body req) = None
      \/ (exists v, JSON_parse (body req) = Some v
                    /\ (optget v "data" = JUndefined \/ optget v "data" = JNull)) ->
      response (webhook cfg req env s) = internal_error
      /\ after (webhook cfg req env s) = s
      /\ forallb (fun e => negb (is_fetch e)) (effects (webhook cfg req env s)) = true)
  /\ (forall url payload,
        In (Fetch url payload) (effects (webhook cfg req env s)) ->
        sink_ok cfg env = false ->
        response (webhook cfg req env s) = internal_error).
Proof.
  split; [|split; [|split]].
  - intros H. rewrite webhook_spec.
    destruct H as [-> | ->]; [reflexivity|].
    destruct (present (WebhookSecret cfg)); reflexivity.
  - intros secret provided Hk Hp Hne. rewrite webhook_spec, Hk, Hp. cbv zeta.
    destruct (length _ =? length _)%nat; [|reflexivity].
    rewrite bool_decide_eq_false_2 by congruence. reflexivity.
  - intros Ha Hbad.
    assert (exists x, parseEnvelope (body req) = Throw x) as [x Hx].
    { unfold parseEnvelope. destruct Hbad as [-> | (v & -> & Hv)]; [eauto|].
      destruct v as [| |b|n|str|items|members]; simpl in *; eauto.
      destruct Hv as [-> | ->]; simpl; eauto. }
    destruct (webhook_relays cfg req Ha) as [eb Hw]. rewrite Hw.
    cbv zeta. rewrite catch_relay, Hx. repeat split.
  - intros url payload Hin Hsink. rewrite webhook_spec in *.
    destruct (present (WebhookSecret cfg)) as [secret|]; [|destruct Hin].
    destruct (present (x_plane_signature req)) as [provided|]; [|destruct Hin].
    cbv zeta in *. destruct (length _ =? length _)%nat; [|destruct Hin].
    destruct (bool_decide _).
    2: { destruct Hin as [Hin|[]]. discriminate. }
    cbn [effects response] in *. destruct Hin as [Hin|Hin]; [discriminate|].
    rewrite catch_relay in *.
    destruct (parseEnvelope (body req)) as [e|x]; [|reflexivity].
    destruct (sequenceMap s !! sequenceKey e) as [r|]; [|destruct Hin].
    destruct (in_window _ _); [|destruct Hin].
    destruct (buildEmbed e (now env)) as [p|x]; [|reflexivity].
    rewrite catch_deliver in *. cbn [effects response] in *. rewrite Hsink. reflexivity.
Qed.

End Verification.

(** ** Delivery *)

Section Delivery.
Context `{RT : Runtime} (cfg : Config).

(** The embed cannot be built unless [event] and [action] are strings. *)
Lemma buildEmbed_needs_strings (e : Envelope) (nowISO : string) :
  (forall ev, e_event e <> JStr ev) \/ (forall ac, e_action e <> JStr ac) ->
  exists x, buildEmbed e nowISO = Throw x.
Proof.
  intros H. unfold buildEmbed. cbv zeta.
  destruct (if is_string _ _ then _ else _) as [content|x]; [|simpl; eauto].
  cbn [bindC].
  destruct (e_event e) as [| |b|n|ev|items|members]; simpl; eauto.
  destruct (e_action e) as [| |b|n|ac|items|members]; simpl; eauto.
  destruct H as [H|H]; [destruct (H ev)|destruct (H ac)]; reflexivity.
Qed.

(** The whole reply to an authentic request whose envelope parses. *)
Lemma webhook_authentic_parsed (req : Request) (e : Envelope) :
  authentic cfg req = true -> parseEnvelope (body req) = Normal e ->
  exists eb, forall env s,
    webhook cfg req env s =
    match decision_of cfg req s with
    | Some (Completed _) =>
        match buildEmbed e (now env) with
        | Normal payload =>
            {| response := if sink_ok cfg env
                           then {| status := 200; text := "Sequence complete" |}
                           else internal_error;
               after := observed e s;
               effects := Compare eb eb :: Fetch (DiscordWebhookUrl cfg) payload
                          :: (if sink_ok cfg env then []
                              else [ConsoleError (delivery_fault cfg env)]) |}
        | Throw x =>
            {| response := internal_error; after := observed e s;
               effects := [Compare eb eb; ConsoleError x] |}
        end
    | Some Reset =>
        {| response := {| status := 200; text := "Window reset" |};
           after := observed e s; effects := [Compare eb eb] |}
    | _ =>
        {| response := {| status := 200; text := "Initial event cached" |};
           after := observed e s; effects := [Compare eb eb] |}
    end.
Proof.
  intros Ha He. destruct (webhook_relays cfg req Ha) as [eb Hw]. exists eb. intros env s.
  rewrite Hw. cbv zeta. rewrite catch_relay, He, (decision_of_authentic cfg req s e Ha He).
  destruct (sequenceMap s !! sequenceKey e) as [r|]; [|reflexivity].
  destruct (in_window _ _); [|reflexivity].
  destruct (buildEmbed e (now env)) as [payload|x]; [|reflexivity].
  rewrite catch_deliver. reflexivity.
Qed.

(** Without a decision there is no delivery. *)
Lemma no_decision_no_fetch (req : Request) (env : Env) (s : Store) :
  decision_of cfg req s = None ->
  forall url payload, ~ In (Fetch url payload) (effects (webhook cfg req env s)).
Proof.
  intros Hd url payload Hin. unfold decision_of in Hd.
  destruct (authentic cfg req) eqn:Ha.
  - destruct (parseEnvelope (body req)) as [e|x] eqn:He.
    + destruct (observe_returns (sequenceKey e) (incomingTimestamp e) (e_action e) s)
        as (d & Hc & _).
      rewrite Hc in Hd. discriminate.
    + destruct (webhook_relays cfg req Ha) as [eb Hw]. specialize (Hw env s). rewrite Hw in Hin.
      cbv zeta in Hin. rewrite catch_relay, He in Hin.
      destruct Hin as [Hin|[Hin|[]]]; discriminate.
  - pose proof (webhook_rejects cfg req env s Ha) as (_ & _ & Hc). cbv zeta in Hc.
    rewrite forallb_forall in Hc. apply Hc in Hin. discriminate.
Qed.

(** A decision is taken only on an authentic request whose envelope
    parses. *)
Lemma decision_of_Some (req : Request) (s : Store) (d : Decision) :
  decision_of cfg req s = Some d ->
  authentic cfg req = true /\ exists e, parseEnvelope (body req) = Normal e.
Proof.
  unfold decision_of. destruct (authentic cfg req); [|discriminate].
  destruct (parseEnvelope (body req)) as [e|x]; [eauto|discriminate].
Qed.

(** C7, as the code has it: a delivery to the sink is attempted if and only
    if the decision is Completed and the embed can be built from the
    envelope, which takes an [event] and an [action] that are strings; at
    most one delivery is attempted for a request; a Cached or Reset request
    is answered 200 with no delivery; and a Completed request whose [event]
    or [action] is no string is answered 500 with no delivery. *)
Theorem delivery_iff_completed_and_built (req : Request) (env : Env) (s : Store) :
  (forall url payload,
     In (Fetch url payload) (effects (webhook cfg req env s)) <->
     url = DiscordWebhookUrl cfg
     /\ exists r e, decision_of cfg req s = Some (Completed r)
                    /\ parseEnvelope (body req) = Normal e
                    /\ buildEmbed e (now env) = Normal payload)
  /\ (length (filter (fun e => is_fetch e = true) (effects (webhook cfg req env s))) <= 1)%nat
  /\ (decision_of cfg req s = Some Cached \/ decision_of cfg req s = Some Reset ->
      status (response (webhook cfg req env s)) = 200
      /\ forallb (fun e => negb (is_fetch e)) (effects (webhook cfg req env s)) = true)
  /\ (forall r e,
        decision_of cfg req s = Some (Completed r) ->
        parseEnvelope (body req) = Normal e ->
        (forall ev, e_event e <> JStr ev) \/ (forall ac, e_action e <> JStr ac) ->
        response (webhook cfg req env s) = internal_error
        /\ forallb (fun e => negb (is_fetch e)) (effects (webhook cfg req env s)) = true).
Proof.
  destruct (decision_of cfg req s) as [d|] eqn:Hd.
  2: { pose proof (no_decision_no_fetch req env s Hd) as Hno.
       split; [|split; [|split]].
       - intros url payload. split; [intros Hin; destruct (Hno _ _ Hin)|].
         intros (_ & r & e & H & _). discriminate.
       - assert (filter (fun e => is_fetch e = true) (effects (webhook cfg req env s)) = [])
           as ->; [|simpl; lia].
         induction (effects (webhook cfg req env s)) as [|x l IH]; [reflexivity|].
         rewrite filter_cons. destruct x as [a b|url payload|x].
         + simpl. apply IH. intros u p Hin. apply (Hno u p). right. exact Hin.
         + destruct (Hno url payload). left. reflexivity.
         + simpl. apply IH. intros u p Hin. apply (Hno u p). right. exact Hin.
       - intros [H|H]; discriminate.
       - intros r e H. discriminate. }
  destruct (decision_of_Some req s d Hd) as (Ha & e & He).
  destruct (webhook_authentic_parsed req e Ha He) as [eb Hw]. specialize (Hw env s).
  rewrite Hd in Hw. rewrite Hw. clear Hw.
  destruct d as [|r|].
  - split; [|split; [|split]].
    + intros url payload. split.
      * intros [Hin|[]]. discriminate.
      * intros (_ & r & e' & H & _). discriminate.
    + simpl. lia.
    + intros _. split; reflexivity.
    + intros r e' H. discriminate.
  - destruct (buildEmbed e (now env)) as [payload0|x] eqn:Hb.
    + split; [|split; [|split]].
      * intros url payload. split.
        -- intros [Hin|[Hin|Hin]]; [discriminate| |].
           ++ inversion Hin. subst. split; [reflexivity|]. exists r, e. auto.
           ++ destruct (sink_ok cfg env); [destruct Hin|].
              destruct Hin as [Hin|[]]. discriminate.
        -- intros (-> & r' & e' & _ & He' & Hb').
           rewrite He in He'. inversion He'. subst e'. rewrite Hb in Hb'. inversion Hb'.
           subst. right. left. reflexivity.
      * cbn [effects]. destruct (sink_ok cfg env); simpl; lia.
      * intros [H|H]; discriminate.
      * intros r' e' _ He' Hstr. rewrite He in He'. inversion He'. subst e'.
        destruct (buildEmbed_needs_strings e (now env) Hstr) as [x Hx].
        rewrite Hb in Hx. discriminate.
    + split; [|split; [|split]].
      * intros url payload. split.
        -- intros [Hin|[Hin|[]]]; discriminate.
        -- intros (_ & r' & e' & _ & He' & Hb').
           rewrite He in He'. inversion He'. subst e'. rewrite Hb in Hb'. discriminate.
      * simpl. lia.
      * intros [H|H]; discriminate.
      * intros r' e' _ _ _. split; reflexivity.
  - split; [|split; [|split]].
    + intros url payload. split.
      * intros [Hin|[]]. discriminate.
      * intros (_ & r & e' & H & _). discriminate.
    + simpl. lia.
    + intros _. split; reflexivity.
    + intros r e' H. discriminate.
Qed.

End Delivery.

(** ** The embed *)

Lemma ToString_primitive (v : jsval) :
  primitive v = true -> exists s, ToString v = Normal s.
Proof. destruct v; simpl; try discriminate; eauto. Qed.

Lemma nullish_or_nullish (v d : jsval) : nullish v = true -> nullish_or v d = d.
Proof. destruct v; simpl; try discriminate; reflexivity. Qed.

Lemma nullish_or_present (v d : jsval) : nullish v = false -> nullish_or v d = v.
Proof. destruct v; simpl; try discriminate; reflexivity. Qed.

Lemma is_string_true (v : jsval) (s : string) : is_string v s = true <-> v = JStr s.
Proof.
  destruct v; simpl; split; try discriminate.
  - intros H. apply String.eqb_eq in H. congruence.
  - intros H. inversion H. apply String.eqb_refl.
Qed.

Lemma bindC_Normal {A B : Type} (c : Completion A) (k : A -> Completion B) (b : B) :
  bindC c k = Normal b -> exists a, c = Normal a /\ k a = Normal b.
Proof. destruct c as [a|x]; simpl; [eauto|discriminate]. Qed.

Lemma call_toUpperCase_Normal (v : jsval) (s : string) :
  call_toUpperCase v = Normal s -> exists str, v = JStr str /\ s = toUpperCase str.
Proof. destruct v; simpl; try discriminate. intros H. inversion H. eauto. Qed.

(** [v?.k ?? d] is [d] when [v] is absent. *)
Lemma nullish_optget_of_nullish (v : jsval) (k : string) :
  nullish v = true -> optget v k = JUndefined.
Proof. destruct v; simpl; try discriminate; reflexivity. Qed.

(** Upper case beyond a-z: "é ß" becomes "É SS", and the division sign
    stays. *)
Example toUpperCase_latin1 :
  toUpperCase (String (ascii_of_N 233) (String " " (String (ascii_of_N 223) "")))
  = String (ascii_of_N 201) " SS"
  /\ toUpperCase (String (ascii_of_N 247) "") = String (ascii_of_N 247) "".
Proof. split; reflexivity. Qed.

(** On a string of code units below 128 the upper case is in range. *)
Lemma upper_in_range_ascii (s : string) :
  forallb (fun c => (N_of_ascii c <? 128)%N) (list_ascii_of_string s) = true ->
  upper_in_range s = true.
Proof.
  induction s as [|c s IH]; simpl; [reflexivity|].
  intros H. apply andb_true_iff in H as [Hc Hs]. rewrite (IH Hs).
  apply N.ltb_lt in Hc.
  destruct (N.eqb_spec (N_of_ascii c) 181) as [E|_]; [rewrite E in Hc; lia|].
  destruct (N.eqb_spec (N_of_ascii c) 255) as [E|_]; [rewrite E in Hc; lia|].
  reflexivity.
Qed.

(** C8: for a completed pair the embed has as title the event type and the
    action, both in upper case; as description a line naming the entity (its
    name, or its id when it has no name); as content the raw field name of
    the activity, but "Issue is now in " followed by the new value in upper
    case when the field is exactly "state" (and "No field data" when there is
    no field); and as byline the actor's display name, or "Unknown User" when
    the actor is absent.  Such an embed is built whenever event and action
    are strings and the values printed are no arrays or objects.  The upper
    case is the one JavaScript gives; it is stated for the strings whose
    upper case stays below code unit 256, those with no micro sign and no y
    with diaeresis. *)
Theorem embed_format (e : Envelope) (nowISO : string) :
  let field := optget (e_activity e) "field" in
  let new_value := nullish_or (optget (e_activity e) "new_value") (JStr "Unknown") in
  let actor := optget (e_activity e) "actor" in
  (forall ev ac data_name data_id,
     e_event e = JStr ev -> e_action e = JStr ac ->
     get (e_data e) "name" = Normal data_name -> get (e_data e) "id" = Normal data_id ->
     primitive (if truthy data_name then data_name else data_id) = true ->
     primitive new_value = true ->
     exists payload, buildEmbed e nowISO = Normal payload)
  /\ (forall payload,
        buildEmbed e nowISO = Normal payload ->
        (exists ev ac,
           e_event e = JStr ev /\ e_action e = JStr ac
           /\ (upper_in_range ev = true -> upper_in_range ac = true ->
               title payload = toUpperCase ev +:+ " " +:+ toUpperCase ac))
        /\ (exists data_name data_id entity,
              get (e_data e) "name" = Normal data_name
              /\ get (e_data e) "id" = Normal data_id
              /\ ToString (if truthy data_name then data_name else data_id) = Normal entity
              /\ description payload = "**Entity:** " +:+ entity)
        /\ exists content byline,
             fields payload =
               [ {| name := "Type"; value := nullish_or field (JStr "No field data");
                    inline := Some true |};
                 {| name := "By"; value := byline; inline := Some true |};
                 {| name := "Content"; value := content; inline := None |} ]
             /\ (field = JStr "state" ->
                 exists text, ToString new_value = Normal text
                              /\ (upper_in_range text = true ->
                                  content = JStr ("Issue is now in " +:+ toUpperCase text)))
             /\ (field <> JStr "state" -> nullish field = false -> content = field)
             /\ (nullish field = true -> content = JStr "No field data")
             /\ (nullish (optget actor "display_name") = false ->
                 byline = optget actor "display_name")
             /\ (nullish actor = true -> byline = JStr "Unknown User")).
Proof.
  cbv zeta. split.
  - intros ev ac data_name data_id Hev Hac Hname Hid Hentity Hnew.
    destruct (ToString_primitive _ Hentity) as [entity He].
    destruct (ToString_primitive _ Hnew) as [text Ht].
    unfold buildEmbed. cbv zeta. rewrite Hev, Hac, Hname, Hid, Ht.
    cbn [bindC call_toUpperCase]. rewrite He.
    destruct (is_string _ _); cbn [bindC]; eauto.
  - intros payload Hb. unfold buildEmbed in Hb. cbv zeta in Hb.
    apply bindC_Normal in Hb as (content & Hcontent & Hb).
    apply bindC_Normal in Hb as (EVENT & Hev & Hb).
    apply bindC_Normal in Hb as (ACTION & Hac & Hb).
    apply bindC_Normal in Hb as (data_name & Hname & Hb).
    apply bindC_Normal in Hb as (data_id & Hid & Hb).
    apply bindC_Normal in Hb as (entity & Hentity & Hb).
    inversion Hb. subst payload. clear Hb. cbn [title description fields].
    apply call_toUpperCase_Normal in Hev as (ev & Hev & ->).
    apply call_toUpperCase_Normal in Hac as (ac & Hac & ->).
    split; [exists ev, ac; auto|].
    split; [exists data_name, data_id, entity; auto|].
    do 2 eexists. split; [reflexivity|].
    destruct (is_string (nullish_or (optget (e_activity e) "field") (JStr "No field data"))
                        "state") eqn:Hstate.
    + apply is_string_true in Hstate.
      assert (Hfield : optget (e_activity e) "field" = JStr "state").
      { destruct (optget (e_activity e) "field"); simpl in Hstate; try discriminate;
          exact Hstate. }
      apply bindC_Normal in Hcontent as (text & Ht & Hc). inversion Hc. subst content.
      split; [eauto|]. split; [congruence|].
      split; [rewrite Hfield; discriminate|].
      split; [intros H; apply nullish_or_present; exact H|].
      intros H. rewrite (nullish_optget_of_nullish _ _ H). reflexivity.
    + inversion Hcontent. subst content.
      split.
      { intros Hf. rewrite Hf in Hstate. discriminate. }
      split; [intros _ H; apply nullish_or_present; exact H|].
      split; [intros H; apply nullish_or_nullish; exact H|].
      split; [intros H; apply nullish_or_present; exact H|].
      intros H. rewrite (nullish_optget_of_nullish _ _ H). reflexivity.
Qed.

(** ** What a completion is built from *)

Section Completion.
Context `{RT : Runtime} (cfg : Config).

(** [observe] touches the table at its key only. *)
Lemma observed_other_key (e : Envelope) (s : Store) (k : string) :
  k <> sequenceKey e -> sequenceMap (observed e s) !! k = sequenceMap s !! k.
Proof.
  intros Hk. unfold observed. rewrite observe_spec.
  destruct (sequenceMap s !! sequenceKey e) as [r|]; [destruct (in_window _ _)|];
    cbn [store sequenceMap].
  - apply lookup_delete_ne. congruence.
  - apply lookup_insert_ne. congruence.
  - apply lookup_insert_ne. congruence.
Qed.

(** What [observe] leaves depends on the envelope through its key, its
    timestamp and its action only. *)
Lemma observed_ext (e e' : Envelope) (s : Store) :
  sequenceKey e = sequenceKey e' -> incomingTimestamp e = incomingTimestamp e' ->
  e_action e = e_action e' -> observed e s = observed e' s.
Proof. intros Hk Ht Ha. unfold observed. rewrite Hk, Ht, Ha. reflexivity. Qed.

(** C6, as the code has it: when the decision is Completed the handler has
    in hand the cached record, which keeps of the original envelope its
    timestamp and its action and nothing else, and the new envelope; the
    embed it sends is built from the new envelope alone, so that neither the
    cached record nor anything else in the store changes the reply. *)
Theorem completed_embed_from_new_envelope (req : Request) (env : Env) :
  (forall s r,
     decision_of cfg req s = Some (Completed r) ->
     exists e,
       parseEnvelope (body req) = Normal e
       /\ sequenceMap s !! sequenceKey e = Some r
       /\ forall url payload,
            In (Fetch url payload) (effects (webhook cfg req env s)) ->
            buildEmbed e (now env) = Normal payload)
  /\ (forall s1 s2 r1 r2,
        decision_of cfg req s1 = Some (Completed r1) ->
        decision_of cfg req s2 = Some (Completed r2) ->
        response (webhook cfg req env s1) = response (webhook cfg req env s2)
        /\ effects (webhook cfg req env s1) = effects (webhook cfg req env s2))
  /\ (forall original original' e0 e0' env0 env0' s,
        authentic cfg original = true -> authentic cfg original' = true ->
        parseEnvelope (body original) = Normal e0 ->
        parseEnvelope (body original') = Normal e0' ->
        sequenceKey e0 = sequenceKey e0' ->
        incomingTimestamp e0 = incomingTimestamp e0' ->
        e_action e0 = e_action e0' ->
        after (webhook cfg original env0 s) = after (webhook cfg original' env0' s)).
Proof.
  split; [|split].
  - intros s r Hd. destruct (decision_of_Some cfg req s _ Hd) as (Ha & e & He).
    exists e. split; [exact He|].
    pose proof (decision_of_authentic cfg req s e Ha He) as Hd'. rewrite Hd in Hd'.
    destruct (sequenceMap s !! sequenceKey e) as [r'|] eqn:Hr; [|discriminate].
    destruct (in_window _ _); [|discriminate]. inversion Hd'. subst r'.
    split; [reflexivity|].
    intros url payload Hin.
    destruct (webhook_authentic_parsed cfg req e Ha He) as [eb Hw].
    rewrite Hw, Hd in Hin.
    destruct (buildEmbed e (now env)) as [payload0|x].
    + destruct Hin as [Hin|[Hin|Hin]]; [discriminate|inversion Hin; reflexivity|].
      destruct (sink_ok cfg env); [destruct Hin|]. destruct Hin as [Hin|[]]. discriminate.
    + destruct Hin as [Hin|[Hin|[]]]; discriminate.
  - intros s1 s2 r1 r2 H1 H2. destruct (decision_of_Some cfg req s1 _ H1) as (Ha & e & He).
    destruct (webhook_authentic_parsed cfg req e Ha He) as [eb Hw].
    rewrite (Hw env s1), (Hw env s2), H1, H2.
    destruct (buildEmbed e (now env)); split; reflexivity.
  - intros original original' e0 e0' env0 env0' s Ha Ha' He He' Hk Ht Hact.
    rewrite (webhook_after_authentic cfg original env0 s e0 Ha He).
    rewrite (webhook_after_authentic cfg original' env0' s e0' Ha' He').
    apply observed_ext; assumption.
Qed.

End Completion.

(** ** Records stamped NaN, and records left by a reset *)

Section Persistence.
Context `{RT : Runtime} (cfg : Config).

(** A request that does not observe key [k] leaves its record alone. *)
Lemma webhook_other_key (req : Request) (env : Env) (s : Store) (k : string) :
  (forall e, authentic cfg req = true -> parseEnvelope (body req) = Normal e ->
             sequenceKey e <> k) ->
  sequenceMap (after (webhook cfg req env s)) !! k = sequenceMap s !! k.
Proof.
  intros Hk. destruct (authentic cfg req) eqn:Ha.
  - destruct (parseEnvelope (body req)) as [e|x] eqn:He.
    + rewrite (webhook_after_authentic cfg req env s e Ha He).
      apply observed_other_key. intros Heq. apply (Hk e eq_refl eq_refl). congruence.
    + destruct (webhook_after_unparsed cfg req env s x Ha He) as [Hw _].
      rewrite Hw. reflexivity.
  - pose proof (webhook_rejects cfg req env s Ha) as (_ & Hs & _). cbv zeta in Hs.
    rewrite Hs. reflexivity.
Qed.

(** C10: when a first-seen request has an [updated_at] string that does not
    parse to a valid date, the incoming timestamp is NaN, the record is
    stored with the timestamp NaN and its expiry is scheduled
    with the stamp NaN; the guard of an expiry never holds against such a
    record, so no expiry removes it; no later event of the key is Completed
    against it, each is a Reset that overwrites it; and until such an event
    arrives the record stays, whatever requests for other keys and whatever
    expiries come. *)
Theorem nan_record_stays_until_reset :
  (forall text, Date_parse text = NaN -> Date_getTime (JStr text) = Normal NaN)
  /\ (forall req env s e,
     authentic cfg req = true -> parseEnvelope (body req) = Normal e ->
     incomingTimestamp e = NaN -> sequenceMap s !! sequenceKey e = None ->
     decision_of cfg req s = Some Cached
     /\ sequenceMap (after (webhook cfg req env s)) !! sequenceKey e
        = Some {| timestamp := NaN; action := e_action e |}
     /\ timers (after (webhook cfg req env s))
        = timers s ++ [{| timer_key := sequenceKey e; timer_stamp := NaN |}])
  /\ (forall t r, timestamp r = NaN -> num_strict_eq (timestamp r) (timer_stamp t) = false)
  /\ (forall t m k r, m !! k = Some r -> timestamp r = NaN -> expiry t m !! k = Some r)
  /\ (forall req env s e r,
        authentic cfg req = true -> parseEnvelope (body req) = Normal e ->
        sequenceMap s !! sequenceKey e = Some r -> timestamp r = NaN ->
        decision_of cfg req s = Some Reset
        /\ sequenceMap (after (webhook cfg req env s)) !! sequenceKey e
           = Some {| timestamp := incomingTimestamp e; action := e_action e |})
  /\ (forall inputs s k r,
        sequenceMap s !! k = Some r -> timestamp r = NaN ->
        (forall req env e, In (Deliver req env) inputs -> authentic cfg req = true ->
                           parseEnvelope (body req) = Normal e -> sequenceKey e <> k) ->
        sequenceMap (run cfg inputs s) !! k = Some r).
Proof.
  split; [|split; [|split; [|split; [|split]]]].
  - intros text Ht. unfold Date_getTime. rewrite Ht. reflexivity.
  - intros req env s e Ha He Hnan Hnone.
    rewrite (decision_of_authentic cfg req s e Ha He), Hnone.
    rewrite (webhook_after_authentic cfg req env s e Ha He). unfold observed.
    pose proof (observe_cases (sequenceKey e) (incomingTimestamp e) (e_action e) s) as Hc.
    cbv zeta in Hc. rewrite Hnone in Hc. destruct Hc as (_ & Hm & Ht).
    rewrite Hm, Ht, Hnan. split; [reflexivity|]. split; [apply lookup_insert_eq|reflexivity].
  - intros t r Hr. rewrite Hr. reflexivity.
  - intros t m k r. apply expiry_keeps_NaN.
  - intros req env s e r Ha He Hr Hnan.
    rewrite (decision_of_authentic cfg req s e Ha He), Hr, Hnan, in_window_NaN_r.
    split; [reflexivity|].
    rewrite (webhook_after_authentic cfg req env s e Ha He). unfold observed.
    pose proof (observe_cases (sequenceKey e) (incomingTimestamp e) (e_action e) s) as Hc.
    cbv zeta in Hc. rewrite Hr, Hnan, in_window_NaN_r in Hc. destruct Hc as (_ & Hm & _).
    rewrite Hm. apply lookup_insert_eq.
  - intros inputs. induction inputs as [|i inputs IH]; intros s k r Hr Hnan Hother.
    + exact Hr.
    + cbn [run]. apply IH; [|exact Hnan|].
      * destruct i as [req env|]; cbn [step].
        -- rewrite (webhook_other_key req env s k); [exact Hr|].
           intros e Ha He. apply (Hother req env e); [left; reflexivity|exact Ha|exact He].
        -- unfold fire. destruct (timers s) as [|t rest]; [exact Hr|].
           cbn [sequenceMap]. apply expiry_keeps_NaN; assumption.
      * intros req env e Hin. apply (Hother req env e). right. exact Hin.
Qed.

(** A reset schedules nothing. *)
Lemma reset_schedules_nothing (key : string) (t : number) (a : jsval) (s : Store) :
  completion (observe key t a s) = Normal Reset ->
  timers (store (observe key t a s)) = timers s.
Proof.
  rewrite observe_spec.
  destruct (sequenceMap s !! key) as [r|]; [destruct (in_window _ _)|]; simpl;
    try discriminate; reflexivity.
Qed.

(** A request decided Reset leaves the pending timers as they were. *)
Lemma reset_request_schedules_nothing (req : Request) (env : Env) (s : Store) :
  decision_of cfg req s = Some Reset -> timers (after (webhook cfg req env s)) = timers s.
Proof.
  intros Hd. destruct (decision_of_Some cfg req s _ Hd) as (Ha & e & He).
  rewrite (webhook_after_authentic cfg req env s e Ha He). unfold observed.
  apply reset_schedules_nothing.
  unfold decision_of in Hd. rewrite Ha, He in Hd.
  destruct (completion (observe _ _ _ s)) as [d|x]; [congruence|discriminate].
Qed.

(** With no timer pending, expiries change nothing. *)
Lemma ticks_without_timers (n : nat) (s : Store) :
  timers s = [] -> run cfg (repeat Tick n) s = s.
Proof.
  intros Ht. induction n as [|n IH]; [reflexivity|].
  cbn [repeat run step]. unfold fire. rewrite Ht. exact IH.
Qed.

End Persistence.

(** * The rest of the handler *)

(** ** Buffers *)

(** The bytes of one code unit are never none. *)
Lemma utf8_unit_app_nonempty (c : ascii) (l : list byte) : utf8_unit c ++ l <> [].
Proof. unfold utf8_unit. destruct (_ <? _)%N; discriminate. Qed.

(** The bytes of a code unit, followed by anything, give the code unit and
    what follows back. *)
Lemma utf8_unit_app_inj (c1 c2 : ascii) (l1 l2 : list byte) :
  utf8_unit c1 ++ l1 = utf8_unit c2 ++ l2 -> c1 = c2 /\ l1 = l2.
Proof.
  set (read := fun l : list byte =>
         match l with
         | b :: rest =>
             if (Byte.to_N b <? 128)%N then Some (ascii_of_byte b, rest)
             else match rest with
                  | b2 :: rest2 =>
                      Some (ascii_of_N ((Byte.to_N b - 192) * 64 + (Byte.to_N b2 - 128)), rest2)
                  | [] => None
                  end
         | [] => None
         end).
  assert (Hread : forall c l, read (utf8_unit c ++ l) = Some (c, l)).
  { intros c l. destruct c as [[] [] [] [] [] [] [] []]; reflexivity. }
  intros H. apply (f_equal read) in H. rewrite !Hread in H. inversion H. auto.
Qed.

(** [Buffer.from(s, "utf-8")] tells strings apart: comparing the buffers of
    lines 69-70 is comparing the strings. *)
Lemma Buffer_from_inj (s1 s2 : string) : Buffer_from s1 = Buffer_from s2 -> s1 = s2.
Proof.
  revert s2. induction s1 as [|c1 s1 IH]; intros [|c2 s2]; simpl; intros H.
  - reflexivity.
  - symmetry in H. destruct (utf8_unit_app_nonempty _ _ H).
  - destruct (utf8_unit_app_nonempty _ _ H).
  - apply utf8_unit_app_inj in H as [-> H]. rewrite (IH s2 H). reflexivity.
Qed.

(** ** Startup *)

(** X1: the module loads (lines 21-28) if and only if both environment
    variables are set to a string that is not empty; in every other case it
    throws the error that names them, so that no server is listening. *)
Theorem startup_requires_both_variables (c : Config) :
  (startup c = Normal tt <->
   exists secret url,
     WebhookSecret c = Some secret /\ secret <> ""
     /\ DiscordWebhookUrl c = Some url /\ url <> "")
  /\ (startup c = Normal tt
      \/ startup c
         = Throw (Error "Missing required environment variables: WEBHOOK_SECRET or DISCORD_WEBHOOK_URL")).
Proof.
  unfold startup. split.
  - split.
    + destruct (present (WebhookSecret c)) as [secret|] eqn:Hk; [|discriminate].
      destruct (present (DiscordWebhookUrl c)) as [url|] eqn:Hu; [|discriminate].
      intros _. apply present_Some in Hk as [Hk Hk']. apply present_Some in Hu as [Hu Hu'].
      exists secret, url. auto.
    + intros (secret & url & Hk & Hk' & Hu & Hu').
      rewrite (proj2 (present_Some _ secret) (conj Hk Hk')).
      rewrite (proj2 (present_Some _ url) (conj Hu Hu')). reflexivity.
  - destruct (present (WebhookSecret c)); [|right; reflexivity].
    destruct (present (DiscordWebhookUrl c)); [left|right]; reflexivity.
Qed.

(** ** The reply to a request, case by case *)

Section Replies.
Context `{RT : Runtime} (cfg : Config).

(** The store [observe] leaves, in closed form. *)
Lemma observed_eq (e : Envelope) (s : Store) :
  observed e s =
  let obs := {| timestamp := incomingTimestamp e; action := e_action e |} in
  match sequenceMap s !! sequenceKey e with
  | None =>
      {| sequenceMap := <[sequenceKey e := obs]> (sequenceMap s);
         timers := timers s
                   ++ [{| timer_key := sequenceKey e; timer_stamp := incomingTimestamp e |}] |}
  | Some r =>
      if in_window (incomingTimestamp e) (timestamp r)
      then {| sequenceMap := delete (sequenceKey e) (sequenceMap s); timers := timers s |}
      else {| sequenceMap := <[sequenceKey e := obs]> (sequenceMap s); timers := timers s |}
  end.
Proof.
  unfold observed. rewrite observe_spec. cbv zeta.
  destruct (sequenceMap s !! sequenceKey e) as [r|]; [destruct (in_window _ _)|]; reflexivity.
Qed.

(** A request that is not authentic, exactly. *)
Lemma webhook_rejects_exact (req : Request) (env : Env) (s : Store) :
  authentic cfg req = false ->
  webhook cfg req env s = {| response := unauthorized; after := s; effects := [] |}
  \/ webhook cfg req env s = {| response := forbidden; after := s; effects := [] |}
  \/ exists a b,
       webhook cfg req env s = {| response := forbidden; after := s; effects := [Compare a b] |}.
Proof.
  unfold authentic. rewrite webhook_spec.
  destruct (present (WebhookSecret cfg)); [|auto].
  destruct (present (x_plane_signature req)); [|auto].
  cbv zeta. destruct (length _ =? length _)%nat; [|auto].
  intros ->. right. right. eauto.
Qed.

(** Every way the handler answers a request. *)
Lemma webhook_cases (req : Request) (env : Env) (s : Store) :
  let w := webhook cfg req env s in
  (authentic cfg req = false
   /\ (w = {| response := unauthorized; after := s; effects := [] |}
       \/ w = {| response := forbidden; after := s; effects := [] |}
       \/ exists a b, w = {| response := forbidden; after := s; effects := [Compare a b] |}))
  \/ (authentic cfg req = true
      /\ exists eb,
           (exists x,
              parseEnvelope (body req) = Throw x
              /\ w = {| response := internal_error; after := s;
                        effects := [Compare eb eb; ConsoleError x] |})
           \/ exists e,
                parseEnvelope (body req) = Normal e
                /\ ((sequenceMap s !! sequenceKey e = None
                     /\ w = {| response := {| status := 200; text := "Initial event cached" |};
                               after := observed e s; effects := [Compare eb eb] |})
                    \/ (exists r,
                          sequenceMap s !! sequenceKey e = Some r
                          /\ in_window (incomingTimestamp e) (timestamp r) = false
                          /\ w = {| response := {| status := 200; text := "Window reset" |};
                                    after := observed e s; effects := [Compare eb eb] |})
                    \/ (exists r x,
                          sequenceMap s !! sequenceKey e = Some r
                          /\ in_window (incomingTimestamp e) (timestamp r) = true
                          /\ buildEmbed e (now env) = Throw x
                          /\ w = {| response := internal_error; after := observed e s;
                                    effects := [Compare eb eb; ConsoleError x] |})
                    \/ (exists r payload,
                          sequenceMap s !! sequenceKey e = Some r
                          /\ in_window (incomingTimestamp e) (timestamp r) = true
                          /\ buildEmbed e (now env) = Normal payload
                          /\ sink_ok cfg env = true
                          /\ w = {| response := {| status := 200; text := "Sequence complete" |};
                                    after := observed e s;
                                    effects := [Compare eb eb;
                                                Fetch (DiscordWebhookUrl cfg) payload] |})
                    \/ (exists r payload,
                          sequenceMap s !! sequenceKey e = Some r
                          /\ in_window (incomingTimestamp e) (timestamp r) = true
                          /\ buildEmbed e (now env) = Normal payload
                          /\ sink_ok cfg env = false
                          /\ w = {| response := internal_error; after := observed e s;
                                    effects := [Compare eb eb;
                                                Fetch (DiscordWebhookUrl cfg) payload;
                                                ConsoleError (delivery_fault cfg env)] |}))).
Proof.
  cbv zeta. destruct (authentic cfg req) eqn:Ha.
  2: { left. split; [reflexivity|]. apply webhook_rejects_exact, Ha. }
  right. split; [reflexivity|].
  destruct (webhook_relays cfg req Ha) as [eb Hw]. exists eb. rewrite Hw. cbv zeta.
  rewrite catch_relay.
  destruct (parseEnvelope (body req)) as [e|x]; [right; exists e|left; exists x; auto].
  split; [reflexivity|].
  destruct (sequenceMap s !! sequenceKey e) as [r|]; [|left; auto].
  right. destruct (in_window _ _) eqn:Hw'; [|left; exists r; auto].
  right. destruct (buildEmbed e (now env)) as [payload|x]; [|left; exists r, x; auto].
  right. rewrite catch_deliver. cbn [response after effects].
  destruct (sink_ok cfg env); [left|right]; exists r, payload; auto.
Qed.

End Replies.

(** The cases of [webhook_cases], named. *)
Ltac reply_cases cfg req env s :=
  let Hw := fresh "Hw" in
  destruct (webhook_cases cfg req env s) as
    [(Hauth & [Hw | [Hw | (a & b & Hw)]])
    |(Hauth & eb & [(x & Hparse & Hw)
                   |(e & Hparse & [(Hrec & Hw)
                                  |[(r & Hrec & Hwin & Hw)
                                   |[(r & x & Hrec & Hwin & Hbuild & Hw)
                                    |[(r & payload & Hrec & Hwin & Hbuild & Hsink & Hw)
                                     |(r & payload & Hrec & Hwin & Hbuild & Hsink & Hw)]]]])])];
  cbv zeta in Hw; rewrite Hw in *; clear Hw; cbn [response after effects status] in *.

Section Started.
Context `{RT : Runtime} (cfg : Config).

(** X2: on a server that started, the test of the secret on line 61 never
    fires: a request is answered 401 if and only if its signature header is
    absent or empty; and whenever the handler calls fetch, it calls it with
    a URL that is a string and is not empty. *)
Theorem started_server_401_iff_no_signature (req : Request) (env : Env) (s : Store) :
  startup cfg = Normal tt ->
  (status (response (webhook cfg req env s)) = 401 <->
   x_plane_signature req = None \/ x_plane_signature req = Some "")
  /\ (forall url payload,
        In (Fetch url payload) (effects (webhook cfg req env s)) ->
        exists u, url = Some u /\ u <> "").
Proof.
  intros Hs. destruct (startup_present cfg Hs) as (secret & u & Hk & Hu).
  split.
  - rewrite <- present_None. rewrite webhook_spec, Hk.
    destruct (present (x_plane_signature req)) as [provided|].
    + split; [|discriminate]. cbv zeta.
      destruct (length _ =? length _)%nat; [|discriminate].
      destruct (bool_decide _); [|discriminate]. cbn [response].
      destruct (relay_status cfg (body req) env s) as [H|H]; rewrite H; discriminate.
    + split; reflexivity.
  - apply present_Some in Hu as [Hu Hu'].
    reply_cases cfg req env s; intros url0 payload0 Hin; exists u; (split; [|exact Hu']);
      rewrite <- Hu; simpl in Hin; intuition (try discriminate; congruence).
Qed.

End Started.

(** ** The signature check, exactly *)

Section Signature.
Context `{RT : Runtime} (cfg : Config).

(** A request is authentic exactly when its header is the digest. *)
Lemma authentic_iff_digest (req : Request) (secret : string) :
  present (WebhookSecret cfg) = Some secret ->
  authentic cfg req = true <->
  x_plane_signature req = Some (createHmac_sha256_hex secret (body req))
  /\ createHmac_sha256_hex secret (body req) <> "".
Proof.
  intros Hk. unfold authentic. rewrite Hk. split.
  - destruct (present (x_plane_signature req)) as [provided|] eqn:Hp; [|discriminate].
    intros H. apply bool_decide_eq_true in H. apply Buffer_from_inj in H.
    apply present_Some in Hp as [Hp Hne]. rewrite H. split; [exact Hp|exact Hne].
  - intros [Hp Hne]. rewrite (proj2 (present_Some _ _) (conj Hp Hne)).
    apply bool_decide_eq_true. reflexivity.
Qed.

(** X3: with a secret configured, a request gets past the signature check
    (it is answered 200 or 500, not 401 or 403) if and only if its
    x-plane-signature header is, as a string, the hexadecimal HMAC-SHA256 of
    the raw body under the secret; and it is answered 403 if and only if the
    header is present, not empty, and another string than that digest.
    Comparing the two UTF-8 buffers loses nothing. *)
Theorem signature_accepted_iff_digest (req : Request) (env : Env) (s : Store)
        (secret : string) :
  present (WebhookSecret cfg) = Some secret ->
  let digest := createHmac_sha256_hex secret (body req) in
  let w := webhook cfg req env s in
  (status (response w) = 200 \/ status (response w) = 500 <->
   x_plane_signature req = Some digest /\ digest <> "")
  /\ (status (response w) = 403 <->
      exists provided,
        x_plane_signature req = Some provided /\ provided <> "" /\ provided <> digest).
Proof.
  intros Hk digest w.
  pose proof (authentic_iff_digest req secret Hk) as Hauth. fold digest in Hauth.
  assert (H403 : authentic cfg req = false ->
                 status (response w) = 403 <-> present (x_plane_signature req) <> None).
  { intros Ha. unfold w. unfold authentic in Ha. rewrite webhook_spec, Hk in *.
    destruct (present (x_plane_signature req)) as [provided|].
    - cbv zeta. destruct (length _ =? length _)%nat.
      + rewrite Ha. split; [discriminate|reflexivity].
      + split; [discriminate|reflexivity].
    - split; [discriminate|congruence]. }
  destruct (authentic cfg req) eqn:Ha.
  - assert (Hst : status (response w) = 200 \/ status (response w) = 500).
    { unfold w. destruct (webhook_relays cfg req Ha) as [eb Hw]. rewrite Hw. cbv zeta.
      cbn [response]. apply relay_status. }
    destruct (proj1 Hauth eq_refl) as [Hp Hne]. split.
    + split; auto.
    + split.
      * intros H. destruct Hst as [Hst|Hst]; rewrite Hst in H; discriminate.
      * intros (provided & Hp' & _ & Hd). congruence.
  - specialize (H403 eq_refl). split.
    + split.
      * intros Hst. exfalso. unfold w in Hst.
        destruct (webhook_rejects cfg req env s Ha) as ([H|H] & _); cbv zeta in H;
          rewrite H in Hst; destruct Hst; discriminate.
      * intros H. apply Hauth in H. discriminate.
    + rewrite H403. split.
      * intros Hp. destruct (present (x_plane_signature req)) as [provided|] eqn:Hp';
          [|congruence].
        apply present_Some in Hp' as [Hp' Hne]. exists provided. split; [exact Hp'|].
        split; [exact Hne|]. intros Heq. subst provided.
        assert (false = true) by (apply Hauth; auto). discriminate.
      * intros (provided & Hp & Hne & _).
        rewrite (proj2 (present_Some _ _) (conj Hp Hne)). discriminate.
Qed.

End Signature.

(** ** The shape of a reply *)

Section Shape.
Context `{RT : Runtime} (cfg : Config).

(** X4: every reply is one of six: 200 with "Initial event cached",
    "Sequence complete" or "Window reset", 401, 403, or 500; what the handler
    does besides comes in one order, at most one comparison of signatures,
    then at most one fetch, to the configured URL, then at most one line on
    the error log; and the log is written if and only if the answer is
    500. *)
Theorem reply_shape (req : Request) (env : Env) (s : Store) :
  let w := webhook cfg req env s in
  In (response w)
     [ {| status := 200; text := "Initial event cached" |};
       {| status := 200; text := "Sequence complete" |};
       {| status := 200; text := "Window reset" |};
       unauthorized; forbidden; internal_error ]
  /\ exists compared fetched logged,
       effects w = compared ++ fetched ++ logged
       /\ (compared = [] \/ exists a b, compared = [Compare a b])
       /\ (fetched = [] \/ exists payload, fetched = [Fetch (DiscordWebhookUrl cfg) payload])
       /\ (logged = [] \/ exists x, logged = [ConsoleError x])
       /\ (logged <> [] <-> status (response w) = 500).
Proof.
  cbv zeta. reply_cases cfg req env s.
  - split; [simpl; auto 10|]. exists [], [], []. simpl.
    repeat split; auto; try discriminate; congruence.
  - split; [simpl; auto 10|]. exists [], [], []. simpl.
    repeat split; auto; try discriminate; congruence.
  - split; [simpl; auto 10|]. exists [Compare a b], [], []. simpl.
    repeat split; eauto; try discriminate; congruence.
  - split; [simpl; auto 10|]. exists [Compare eb eb], [], [ConsoleError x]. simpl.
    repeat split; eauto; try discriminate; congruence.
  - split; [simpl; auto 10|]. exists [Compare eb eb], [], []. simpl.
    repeat split; eauto; try discriminate; congruence.
  - split; [simpl; auto 10|]. exists [Compare eb eb], [], []. simpl.
    repeat split; eauto; try discriminate; congruence.
  - split; [simpl; auto 10|]. exists [Compare eb eb], [], [ConsoleError x]. simpl.
    repeat split; eauto; try discriminate; congruence.
  - split; [simpl; auto 10|].
    exists [Compare eb eb], [Fetch (DiscordWebhookUrl cfg) payload], []. simpl.
    repeat split; eauto; try discriminate; congruence.
  - split; [simpl; auto 10|].
    exists [Compare eb eb], [Fetch (DiscordWebhookUrl cfg) payload],
           [ConsoleError (delivery_fault cfg env)]. simpl.
    repeat split; eauto; try discriminate; congruence.
Qed.

End Shape.

(** ** What a request touches *)

Section Frame.
Context `{RT : Runtime} (cfg : Config).

(** The table after [observe], at the key observed. *)
Lemma observed_at_key (e : Envelope) (s : Store) :
  sequenceMap (observed e s) !! sequenceKey e =
  match sequenceMap s !! sequenceKey e with
  | Some r =>
      if in_window (incomingTimestamp e) (timestamp r) then None
      else Some {| timestamp := incomingTimestamp e; action := e_action e |}
  | None => Some {| timestamp := incomingTimestamp e; action := e_action e |}
  end.
Proof.
  rewrite observed_eq. cbv zeta.
  destruct (sequenceMap s !! sequenceKey e) as [r|]; [destruct (in_window _ _)|];
    cbn [sequenceMap].
  - apply lookup_delete_eq.
  - apply lookup_insert_eq.
  - apply lookup_insert_eq.
Qed.

(** The timers after [observe]. *)
Lemma observed_timers (e : Envelope) (s : Store) :
  timers (observed e s) =
  match sequenceMap s !! sequenceKey e with
  | Some _ => timers s
  | None =>
      timers s ++ [{| timer_key := sequenceKey e; timer_stamp := incomingTimestamp e |}]
  end.
Proof.
  rewrite observed_eq. cbv zeta.
  destruct (sequenceMap s !! sequenceKey e) as [r|]; [destruct (in_window _ _)|]; reflexivity.
Qed.

(** The store after a request is the store before, or the one [observe]
    leaves. *)
Lemma webhook_after_cases (req : Request) (env : Env) (s : Store) :
  after (webhook cfg req env s) = s
  \/ exists e, authentic cfg req = true /\ parseEnvelope (body req) = Normal e
               /\ after (webhook cfg req env s) = observed e s.
Proof. reply_cases cfg req env s; eauto 6. Qed.

(** A request sets no timer, or one, behind those that wait. *)
Lemma webhook_timers_extend (req : Request) (env : Env) (s : Store) :
  exists l, timers (after (webhook cfg req env s)) = timers s ++ l.
Proof.
  destruct (webhook_after_cases req env s) as [-> | (e & _ & _ & ->)].
  - exists []. symmetry. apply app_nil_r.
  - rewrite observed_timers. destruct (sequenceMap s !! sequenceKey e); [|eauto].
    exists []. symmetry. apply app_nil_r.
Qed.

(** X5: a request changes the table at one key at most, the sequence key of
    its own envelope, and only when it is authentic and its envelope is
    read; it removes no pending timer, and sets one only when it is decided
    Cached, for its own key and timestamp, behind the timers that wait. *)
Theorem request_touches_only_its_key (req : Request) (env : Env) (s : Store) :
  let w := webhook cfg req env s in
  (forall k,
     sequenceMap (after w) !! k <> sequenceMap s !! k ->
     authentic cfg req = true
     /\ exists e, parseEnvelope (body req) = Normal e /\ sequenceKey e = k)
  /\ (timers (after w) = timers s
      \/ exists e,
           parseEnvelope (body req) = Normal e
           /\ decision_of cfg req s = Some Cached
           /\ timers (after w)
              = timers s
                ++ [{| timer_key := sequenceKey e; timer_stamp := incomingTimestamp e |}]).
Proof.
  cbv zeta. destruct (webhook_after_cases req env s) as [-> | (e & Ha & He & ->)].
  - split; [intros k Hk; destruct Hk; reflexivity|left; reflexivity].
  - split.
    + intros k Hk. split; [exact Ha|]. exists e. split; [exact He|].
      destruct (decide (k = sequenceKey e)) as [->|Hne]; [reflexivity|].
      destruct Hk. apply observed_other_key. exact Hne.
    + rewrite observed_timers, (decision_of_authentic cfg req s e Ha He).
      destruct (sequenceMap s !! sequenceKey e); [left; reflexivity|].
      right. exists e. auto.
Qed.

End Frame.

(** ** The life of a record *)

(** What an expiry leaves at a key was there before. *)
Lemma expiry_lookup_Some (t : Timer) (m : gmap string PendingRecord) (k : string)
      (r : PendingRecord) :
  expiry t m !! k = Some r -> m !! k = Some r.
Proof.
  unfold expiry. destruct (m !! timer_key t) as [r'|]; [|auto].
  destruct (num_strict_eq _ _); [|auto].
  destruct (decide (k = timer_key t)) as [->|Hne].
  - rewrite lookup_delete_eq. discriminate.
  - rewrite lookup_delete_ne by congruence. auto.
Qed.

(** An expiry stores nothing. *)
Lemma expiry_lookup_None (t : Timer) (m : gmap string PendingRecord) (k : string) :
  m !! k = None -> expiry t m !! k = None.
Proof.
  intros H. destruct (expiry t m !! k) as [r|] eqn:E; [|reflexivity].
  apply expiry_lookup_Some in E. congruence.
Qed.

(** The expiry of a record's own timer leaves none at its key. *)
Lemma expiry_own (key : string) (z : Z) (m : gmap string PendingRecord) :
  (m !! key = None \/ exists r, m !! key = Some r /\ timestamp r = Num z) ->
  expiry {| timer_key := key; timer_stamp := Num z |} m !! key = None.
Proof.
  intros [H | (r & H & Hz)]; [apply expiry_lookup_None, H|].
  rewrite (expiry_same_stamp _ m r); cbn [timer_key timer_stamp].
  - apply lookup_delete_eq.
  - exact H.
  - rewrite Hz. simpl. apply Z.eqb_refl.
Qed.

Section Life.
Context `{RT : Runtime} (cfg : Config).

Lemma leave_alone_cons (k : string) (i : Input) (inputs : list Input) :
  leave_alone cfg k (i :: inputs) -> leave_alone cfg k inputs.
Proof. intros H req env e Hin. apply (H req env e). right. exact Hin. Qed.

(** A key that is free stays free while no request comes for it. *)
Lemma free_key_stays_free (k : string) (inputs : list Input) (s : Store) :
  leave_alone cfg k inputs -> sequenceMap s !! k = None ->
  sequenceMap (run cfg inputs s) !! k = None.
Proof.
  revert s. induction inputs as [|i inputs IH]; intros s Hl Hk; [exact Hk|].
  cbn [run]. apply IH; [exact (leave_alone_cons _ _ _ Hl)|].
  destruct i as [req env|]; cbn [step].
  - rewrite (webhook_other_key cfg req env s k); [exact Hk|].
    intros e Ha He. apply (Hl req env e); [left; reflexivity|exact Ha|exact He].
  - unfold fire. destruct (timers s) as [|t rest]; [exact Hk|].
    cbn [sequenceMap]. apply expiry_lookup_None, Hk.
Qed.

(** A record whose timer waits behind [pre] is gone once more timers have
    fired than [pre] holds, while no request comes for its key. *)
Lemma record_gone_after_its_timer (k : string) (z : Z) (inputs : list Input) :
  forall (s : Store) (pre post : list Timer),
    timers s = pre ++ {| timer_key := k; timer_stamp := Num z |} :: post ->
    (sequenceMap s !! k = None \/ exists r, sequenceMap s !! k = Some r /\ timestamp r = Num z) ->
    leave_alone cfg k inputs ->
    (length pre < ticks inputs)%nat ->
    sequenceMap (run cfg inputs s) !! k = None.
Proof.
  induction inputs as [|i inputs IH]; intros s pre post Ht Hk Hl Hn; [simpl in Hn; lia|].
  pose proof (leave_alone_cons _ _ _ Hl) as Hl'.
  cbn [run]. destruct i as [req env|]; cbn [step ticks] in *.
  - destruct (webhook_timers_extend cfg req env s) as [l Hl2].
    apply (IH _ pre (post ++ l)); [| |exact Hl'|exact Hn].
    + rewrite Hl2, Ht, <- app_assoc. reflexivity.
    + rewrite (webhook_other_key cfg req env s k); [exact Hk|].
      intros e Ha He. apply (Hl req env e); [left; reflexivity|exact Ha|exact He].
  - unfold fire. rewrite Ht. destruct pre as [|t0 pre]; cbn [app].
    + apply free_key_stays_free; [exact Hl'|]. cbn [sequenceMap]. apply expiry_own, Hk.
    + apply (IH _ pre post); [reflexivity| |exact Hl'|simpl in Hn; lia].
      cbn [sequenceMap]. destruct Hk as [Hk | (r & Hk & Hz)].
      * left. apply expiry_lookup_None, Hk.
      * destruct (expiry t0 (sequenceMap s) !! k) as [r'|] eqn:E; [|left; reflexivity].
        right. exists r'. apply expiry_lookup_Some in E. split; [reflexivity|congruence].
Qed.

(** X6: a first-seen event with a valid timestamp that is followed by no
    event of its key is forgotten: once the timers set before it and its own
    have fired, whatever requests for other keys came in between, the table
    holds no record for the key, and the same event is first-seen again. *)
Theorem cached_record_expires (req : Request) (env : Env) (s : Store) (e : Envelope) (z : Z)
        (inputs : list Input) :
  authentic cfg req = true ->
  parseEnvelope (body req) = Normal e ->
  incomingTimestamp e = Num z ->
  sequenceMap s !! sequenceKey e = None ->
  (forall req' env' e',
     In (Deliver req' env') inputs -> authentic cfg req' = true ->
     parseEnvelope (body req') = Normal e' -> sequenceKey e' <> sequenceKey e) ->
  (length (timers s) < ticks inputs)%nat ->
  sequenceMap (run cfg (Deliver req env :: inputs) s) !! sequenceKey e = None
  /\ decision_of cfg req (run cfg (Deliver req env :: inputs) s) = Some Cached.
Proof.
  intros Ha He Hz Hfree Hl Hn.
  assert (Hgone : sequenceMap (run cfg (Deliver req env :: inputs) s) !! sequenceKey e = None).
  { cbn [run step]. rewrite (webhook_after_authentic cfg req env s e Ha He).
    apply (record_gone_after_its_timer (sequenceKey e) z inputs _ (timers s) []).
    - rewrite observed_timers, Hfree, Hz. reflexivity.
    - right. rewrite observed_at_key, Hfree, Hz. eexists. split; reflexivity.
    - exact Hl.
    - exact Hn. }
  split; [exact Hgone|].
  rewrite (decision_of_authentic cfg req _ e Ha He), Hgone. reflexivity.
Qed.

(** X7: a request decided Completed consumes the record before anything is
    sent: whatever the sink answers, and whether or not the embed could be
    built, the key is free afterwards and no timer was set or removed, so
    the next event of the key, a retry of the same request included, is
    first-seen and is not delivered. *)
Theorem completed_frees_key (req : Request) (env : Env) (s : Store) (r : PendingRecord) :
  decision_of cfg req s = Some (Completed r) ->
  exists e,
    parseEnvelope (body req) = Normal e
    /\ sequenceMap (after (webhook cfg req env s)) = delete (sequenceKey e) (sequenceMap s)
    /\ timers (after (webhook cfg req env s)) = timers s
    /\ (forall req' e',
          authentic cfg req' = true -> parseEnvelope (body req') = Normal e' ->
          sequenceKey e' = sequenceKey e ->
          decision_of cfg req' (after (webhook cfg req env s)) = Some Cached)
    /\ (exists compared,
          forall env',
            webhook cfg req env' (after (webhook cfg req env s))
            = {| response := {| status := 200; text := "Initial event cached" |};
                 after := observed e (after (webhook cfg req env s));
                 effects := [compared] |}
            /\ is_fetch compared = false).
Proof.
  intros Hd. destruct (decision_of_Some cfg req s _ Hd) as (Ha & e & He).
  exists e. split; [exact He|].
  rewrite (decision_of_authentic cfg req s e Ha He) in Hd.
  rewrite (webhook_after_authentic cfg req env s e Ha He).
  assert (Hfree : sequenceMap (observed e s) !! sequenceKey e = None).
  { rewrite observed_at_key. destruct (sequenceMap s !! sequenceKey e) as [r'|]; [|discriminate].
    destruct (in_window _ _); [reflexivity|discriminate]. }
  rewrite observed_eq. cbv zeta.
  destruct (sequenceMap s !! sequenceKey e) as [r'|] eqn:Hr; [|discriminate].
  destruct (in_window _ _) eqn:Hwin; [|discriminate]. cbn [sequenceMap timers].
  split; [reflexivity|]. split; [reflexivity|].
  assert (Hobs : observed e s
                 = {| sequenceMap := delete (sequenceKey e) (sequenceMap s);
                      timers := timers s |}).
  { rewrite observed_eq. cbv zeta. rewrite Hr, Hwin. reflexivity. }
  rewrite <- Hobs. split.
  - intros req' e' Ha' He' Hk.
    rewrite (decision_of_authentic cfg req' _ e' Ha' He'), Hk, Hfree. reflexivity.
  - destruct (webhook_authentic_parsed cfg req e Ha He) as [eb Hw].
    exists (Compare eb eb). intros env'. rewrite (Hw env' (observed e s)).
    rewrite (decision_of_authentic cfg req _ e Ha He), Hfree. split; reflexivity.
Qed.

(** X8: the record an event leaves, first-seen or reset, is what the next
    event of its key is measured against: that event is Completed against
    it if its timestamp falls in the window that starts at the record's, and
    is Reset otherwise.  So a request that is delivered twice completes
    itself when its timestamp is a number, and resets itself when it is
    NaN. *)
Theorem next_event_meets_last_observation (req req2 : Request) (env : Env) (s : Store)
        (e e2 : Envelope) :
  authentic cfg req = true -> parseEnvelope (body req) = Normal e ->
  authentic cfg req2 = true -> parseEnvelope (body req2) = Normal e2 ->
  sequenceKey e2 = sequenceKey e ->
  decision_of cfg req s = Some Cached \/ decision_of cfg req s = Some Reset ->
  let last := {| timestamp := incomingTimestamp e; action := e_action e |} in
  let s' := after (webhook cfg req env s) in
  decision_of cfg req2 s'
  = Some (if in_window (incomingTimestamp e2) (incomingTimestamp e) then Completed last
          else Reset)
  /\ (forall z, incomingTimestamp e = Num z -> decision_of cfg req s' = Some (Completed last))
  /\ (incomingTimestamp e = NaN -> decision_of cfg req s' = Some Reset).
Proof.
  intros Ha He Ha2 He2 Hk Hd last s'. subst last.
  assert (Hlast : sequenceMap s' !! sequenceKey e
                  = Some {| timestamp := incomingTimestamp e; action := e_action e |}).
  { unfold s'. rewrite (webhook_after_authentic cfg req env s e Ha He), observed_at_key.
    rewrite (decision_of_authentic cfg req s e Ha He) in Hd.
    destruct (sequenceMap s !! sequenceKey e) as [r|]; [|reflexivity].
    destruct (in_window _ _); [|reflexivity]. destruct Hd; discriminate. }
  split; [|split].
  - rewrite (decision_of_authentic cfg req2 s' e2 Ha2 He2), Hk, Hlast. cbn [timestamp].
    destruct (in_window _ _); reflexivity.
  - intros z Hz. rewrite (decision_of_authentic cfg req s' e Ha He), Hlast. cbn [timestamp].
    assert (Hin : in_window (incomingTimestamp e) (incomingTimestamp e) = true).
    { apply in_window_true. exists z, z. split; [exact Hz|]. split; [exact Hz|lia]. }
    rewrite Hin. reflexivity.
  - intros Hz. rewrite (decision_of_authentic cfg req s' e Ha He), Hlast. cbn [timestamp].
    rewrite Hz. reflexivity.
Qed.

End Life.

(** ** Where records come from *)

Section Origin.
Context `{RT : Runtime} (cfg : Config).

(** A record in the table after an input was there before, or is the
    observation of the input's envelope. *)
Lemma step_lookup_origin (i : Input) (s : Store) (k : string) (r : PendingRecord) :
  sequenceMap (step cfg i s) !! k = Some r ->
  sequenceMap s !! k = Some r
  \/ exists req env e,
       i = Deliver req env /\ authentic cfg req = true
       /\ parseEnvelope (body req) = Normal e /\ sequenceKey e = k
       /\ r = {| timestamp := incomingTimestamp e; action := e_action e |}.
Proof.
  destruct i as [req env|]; cbn [step].
  - destruct (webhook_after_cases cfg req env s) as [-> | (e & Ha & He & ->)]; [auto|].
    destruct (decide (k = sequenceKey e)) as [->|Hne].
    + rewrite observed_at_key. intros H. right. exists req, env, e.
      repeat (split; [auto; fail|]).
      destruct (sequenceMap s !! sequenceKey e) as [r0|]; [destruct (in_window _ _)|];
        congruence.
    + rewrite observed_other_key by exact Hne. auto.
  - unfold fire. destruct (timers s) as [|t rest]; [auto|]. cbn [sequenceMap].
    intros H. left. apply (expiry_lookup_Some t), H.
Qed.

(** A timer that waits after an input waited before, or was set by the
    input's envelope, decided Cached. *)
Lemma step_timer_origin (i : Input) (s : Store) (t : Timer) :
  In t (timers (step cfg i s)) ->
  In t (timers s)
  \/ exists req env e,
       i = Deliver req env /\ authentic cfg req = true
       /\ parseEnvelope (body req) = Normal e
       /\ t = {| timer_key := sequenceKey e; timer_stamp := incomingTimestamp e |}.
Proof.
  destruct i as [req env|]; cbn [step].
  - destruct (webhook_after_cases cfg req env s) as [-> | (e & Ha & He & ->)]; [auto|].
    rewrite observed_timers. destruct (sequenceMap s !! sequenceKey e); [auto|].
    intros H. apply in_app_or in H as [H|[H|[]]]; [auto|].
    right. exists req, env, e. auto.
  - unfold fire. destruct (timers s) as [|t0 rest] eqn:E.
    + rewrite E. auto.
    + cbn [timers]. intros H. left. apply in_cons, H.
Qed.

Lemma run_lookup_origin (inputs : list Input) (s : Store) (k : string) (r : PendingRecord) :
  sequenceMap (run cfg inputs s) !! k = Some r ->
  sequenceMap s !! k = Some r
  \/ exists req env e,
       In (Deliver req env) inputs /\ authentic cfg req = true
       /\ parseEnvelope (body req) = Normal e /\ sequenceKey e = k
       /\ r = {| timestamp := incomingTimestamp e; action := e_action e |}.
Proof.
  revert s. induction inputs as [|i inputs IH]; intros s; cbn [run]; [auto|].
  intros H. apply IH in H as [H | (req & env & e & Hin & H)].
  - apply step_lookup_origin in H as [H | (req & env & e & -> & H)]; [auto|].
    right. exists req, env, e. split; [left; reflexivity|exact H].
  - right. exists req, env, e. split; [right; exact Hin|exact H].
Qed.

Lemma run_timer_origin (inputs : list Input) (s : Store) (t : Timer) :
  In t (timers (run cfg inputs s)) ->
  In t (timers s)
  \/ exists req env e,
       In (Deliver req env) inputs /\ authentic cfg req = true
       /\ parseEnvelope (body req) = Normal e
       /\ t = {| timer_key := sequenceKey e; timer_stamp := incomingTimestamp e |}.
Proof.
  revert s. induction inputs as [|i inputs IH]; intros s; cbn [run]; [auto|].
  intros H. apply IH in H as [H | (req & env & e & Hin & H)].
  - apply step_timer_origin in H as [H | (req & env & e & -> & H)]; [auto|].
    right. exists req, env, e. split; [left; reflexivity|exact H].
  - right. exists req, env, e. split; [right; exact Hin|exact H].
Qed.

(** X9: whatever requests and expiries a server has seen since it started,
    every record in its table is the observation of a request that carried
    the signature of its body and whose envelope was read, stored under that
    envelope's key with its timestamp and action, and every timer that waits
    was set for such a request: a request without the signature leaves no
    trace, then or later. *)
Theorem records_come_from_authentic_requests (inputs : list Input) :
  (forall k r,
     sequenceMap (run cfg inputs init) !! k = Some r ->
     exists req env e,
       In (Deliver req env) inputs /\ authentic cfg req = true
       /\ parseEnvelope (body req) = Normal e /\ sequenceKey e = k
       /\ timestamp r = incomingTimestamp e /\ action r = e_action e)
  /\ (forall t,
        In t (timers (run cfg inputs init)) ->
        exists req env e,
          In (Deliver req env) inputs /\ authentic cfg req = true
          /\ parseEnvelope (body req) = Normal e
          /\ timer_key t = sequenceKey e /\ timer_stamp t = incomingTimestamp e).
Proof.
  split.
  - intros k r H. apply run_lookup_origin in H as [H | (req & env & e & Hin & Ha & He & Hk & ->)].
    + unfold init in H. cbn [sequenceMap] in H. rewrite lookup_empty in H. discriminate.
    + exists req, env, e. auto 10.
  - intros t H. apply run_timer_origin in H as [[] | (req & env & e & Hin & Ha & He & ->)].
    exists req, env, e. auto 10.
Qed.

End Origin.

(** ** Reading the envelope *)

(** The conversion of an array, item by item. *)
Lemma ToString_JArr_cons (x : jsval) (rest : list jsval) :
  ToString (JArr (x :: rest)) =
  let? sx := match x with
             | JUndefined | JNull => Normal ""
             | _ => ToString x
             end in
  match rest with
  | [] => Normal sx
  | _ => let? sr := ToString (JArr rest) in Normal (sx +:+ "," +:+ sr)
  end.
Proof. reflexivity. Qed.

(** Induction on a value, through the items of its arrays. *)
Lemma jsval_ind_items (P : jsval -> Prop)
      (Hundefined : P JUndefined) (Hnull : P JNull) (Hbool : forall b, P (JBool b))
      (Hnum : forall n, P (JNum n)) (Hstr : forall s, P (JStr s))
      (Harr : forall items, Forall P items -> P (JArr items))
      (Hobj : forall members, P (JObj members)) :
  forall v, P v.
Proof.
  exact (fix IH (v : jsval) : P v :=
           match v with
           | JUndefined => Hundefined
           | JNull => Hnull
           | JBool b => Hbool b
           | JNum n => Hnum n
           | JStr s => Hstr s
           | JArr items =>
               Harr items
                    ((fix all (l : list jsval) : Forall P l :=
                        match l with
                        | [] => @List.Forall_nil _ P
                        | i :: rest => @List.Forall_cons _ P i rest (IH i) (all rest)
                        end) items)
           | JObj members => Hobj members
           end).
Qed.

(** A conversion to a string faults with a TypeError only. *)
Lemma ToString_fault (v : jsval) : forall x : Exn, ToString v = Throw x -> x = TypeError.
Proof.
  induction v as [| |b|n|str|items Hitems|members] using jsval_ind_items; try discriminate.
  - induction Hitems as [|i rest Hi Hrest IHrest]; intros x; [discriminate|].
    rewrite ToString_JArr_cons.
    destruct (match i with
              | JUndefined | JNull => Normal ""
              | _ => ToString i
              end) as [sx|x'] eqn:Hconv; cbn [bindC].
    + destruct rest as [|i' rest']; [discriminate|].
      destruct (ToString (JArr (i' :: rest'))) as [sr|x''] eqn:Hr; cbn [bindC]; [discriminate|].
      intros H. inversion H. subst x''. apply IHrest. reflexivity.
    + intros H. inversion H. subst x'.
      destruct i; try discriminate Hconv; apply (Hi _ Hconv).
  - intros x. simpl. destruct (own "toString" members); [|discriminate].
    intros H. inversion H. reflexivity.
Qed.

(** A member read off a value that is there is the member read with [?.]. *)
Lemma get_present (v : jsval) (k : string) : nullish v = false -> get v k = Normal (optget v k).
Proof. destruct v; simpl; try discriminate; reflexivity. Qed.

Lemma get_nullish (v : jsval) (k : string) : nullish v = true -> get v k = Throw TypeError.
Proof. destruct v; simpl; try discriminate; reflexivity. Qed.

Section Reading.
Context `{RT : Runtime}.

Lemma Date_getTime_fault (v : jsval) (x : Exn) : Date_getTime v = Throw x -> x = TypeError.
Proof.
  destruct v; simpl; try discriminate.
  - destruct ((fix join (l : list jsval) : Completion string := _) items) as [s|x'] eqn:E;
      cbn [bindC]; [discriminate|].
    intros H. inversion H. subst x'. apply (ToString_fault (JArr items)). exact E.
  - destruct (own "toString" members); cbn [bindC]; [|discriminate].
    intros H. inversion H. reflexivity.
Qed.

(** A date made from a value that is no array and no object. *)
Lemma Date_getTime_primitive (v : jsval) :
  primitive v = true -> exists t, Date_getTime v = Normal t.
Proof. destruct v; simpl; try discriminate; eauto. Qed.

(** The envelope of a payload whose [data] can be read, when the three
    conversions return. *)
Lemma parseEnvelope_present (RequestBody : list byte) (v : jsval) :
  JSON_parse RequestBody = Some v -> nullish v = false -> nullish (optget v "data") = false ->
  parseEnvelope RequestBody =
  let data := optget v "data" in
  let? stamp := Date_getTime (optget data "updated_at") in
  let? event_text := ToString (optget v "event") in
  let? id_text := ToString (optget data "id") in
  Normal {| e_event := optget v "event"; e_action := optget v "action"; e_data := data;
            e_activity := optget v "activity"; incomingTimestamp := stamp;
            entityId := optget data "id";
            sequenceKey := event_text +:+ ":" +:+ id_text |}.
Proof.
  intros Hv Hpresent Hdata. unfold parseEnvelope. rewrite Hv.
  rewrite !(get_present v) by exact Hpresent. cbn [bindC].
  rewrite !(get_present (optget v "data")) by exact Hdata. cbn [bindC].
  reflexivity.
Qed.

(** X10: what lines 79-84 ask of a signed body, and nothing more.  The body
    must parse as JSON (a SyntaxError otherwise), the payload and its [data]
    member must be neither null nor missing (a TypeError otherwise), and
    [event], [data.id] and [data.updated_at] must convert to a string when
    they are converted (a TypeError otherwise, which no value that is not an
    array or an object raises).  The envelope is then read: its members are
    those of the payload, missing ones being undefined, and its sequence key
    is the text of [event], a colon, and the text of [data.id].  No other
    fault is raised, and neither [action], [activity] nor [data.name] is
    asked for. *)
Theorem parseEnvelope_reads_or_faults (RequestBody : list byte) :
  (JSON_parse RequestBody = None <-> parseEnvelope RequestBody = Throw SyntaxError)
  /\ (forall x, parseEnvelope RequestBody = Throw x -> x = SyntaxError \/ x = TypeError)
  /\ (forall v,
        JSON_parse RequestBody = Some v ->
        let data := optget v "data" in
        (nullish v = true \/ nullish data = true -> parseEnvelope RequestBody = Throw TypeError)
        /\ (forall e,
              parseEnvelope RequestBody = Normal e <->
              nullish v = false /\ nullish data = false
              /\ exists stamp event_text id_text,
                   Date_getTime (optget data "updated_at") = Normal stamp
                   /\ ToString (optget v "event") = Normal event_text
                   /\ ToString (optget data "id") = Normal id_text
                   /\ e = {| e_event := optget v "event"; e_action := optget v "action";
                             e_data := data; e_activity := optget v "activity";
                             incomingTimestamp := stamp; entityId := optget data "id";
                             sequenceKey := event_text +:+ ":" +:+ id_text |})
        /\ (nullish v = false -> nullish data = false ->
            primitive (optget v "event") = true -> primitive (optget data "id") = true ->
            primitive (optget data "updated_at") = true ->
            exists e, parseEnvelope RequestBody = Normal e)).
Proof.
  assert (Hnull : forall v, JSON_parse RequestBody = Some v ->
                    nullish v = true \/ nullish (optget v "data") = true ->
                    parseEnvelope RequestBody = Throw TypeError).
  { intros v Hv Hbad. unfold parseEnvelope. rewrite Hv.
    destruct (nullish v) eqn:Hnv.
    - rewrite (get_nullish v) by exact Hnv. reflexivity.
    - destruct Hbad as [Hbad|Hbad]; [discriminate|].
      rewrite !(get_present v) by exact Hnv. cbn [bindC].
      rewrite (get_nullish (optget v "data")) by exact Hbad. reflexivity. }
  split; [|split].
  - split.
    + intros H. unfold parseEnvelope. rewrite H. reflexivity.
    + intros H. destruct (JSON_parse RequestBody) as [v|] eqn:Hv; [|reflexivity].
      exfalso. destruct (nullish v) eqn:Hnv.
      { rewrite (Hnull v eq_refl (or_introl Hnv)) in H. discriminate. }
      destruct (nullish (optget v "data")) eqn:Hnd.
      { rewrite (Hnull v eq_refl (or_intror Hnd)) in H. discriminate. }
      rewrite (parseEnvelope_present _ v Hv Hnv Hnd) in H. cbv zeta in H.
      destruct (Date_getTime _) as [stamp|x1] eqn:E1; cbn [bindC] in H.
      2: { inversion H. subst x1. apply Date_getTime_fault in E1. discriminate. }
      destruct (ToString (optget v "event")) as [ev|x2] eqn:E2; cbn [bindC] in H.
      2: { inversion H. subst x2. apply ToString_fault in E2. discriminate. }
      destruct (ToString (optget (optget v "data") "id")) as [id|x3] eqn:E3; cbn [bindC] in H.
      2: { inversion H. subst x3. apply ToString_fault in E3. discriminate. }
      discriminate.
  - intros x H. destruct (JSON_parse RequestBody) as [v|] eqn:Hv.
    2: { unfold parseEnvelope in H. rewrite Hv in H. inversion H. auto. }
    right. destruct (nullish v) eqn:Hnv.
    { rewrite (Hnull v eq_refl (or_introl Hnv)) in H. congruence. }
    destruct (nullish (optget v "data")) eqn:Hnd.
    { rewrite (Hnull v eq_refl (or_intror Hnd)) in H. congruence. }
    rewrite (parseEnvelope_present _ v Hv Hnv Hnd) in H. cbv zeta in H.
    destruct (Date_getTime _) as [stamp|x1] eqn:E1; cbn [bindC] in H.
    2: { inversion H. subst x1. exact (Date_getTime_fault _ _ E1). }
    destruct (ToString (optget v "event")) as [ev|x2] eqn:E2; cbn [bindC] in H.
    2: { inversion H. subst x2. exact (ToString_fault _ _ E2). }
    destruct (ToString (optget (optget v "data") "id")) as [id|x3] eqn:E3; cbn [bindC] in H.
    2: { inversion H. subst x3. exact (ToString_fault _ _ E3). }
    discriminate.
  - intros v Hv data. subst data. split; [exact (Hnull v Hv)|]. split.
    + intros e. split.
      * intros H. destruct (nullish v) eqn:Hnv.
        { rewrite (Hnull v Hv (or_introl Hnv)) in H. discriminate. }
        destruct (nullish (optget v "data")) eqn:Hnd.
        { rewrite (Hnull v Hv (or_intror Hnd)) in H. discriminate. }
        split; [reflexivity|]. split; [reflexivity|].
        rewrite (parseEnvelope_present _ v Hv Hnv Hnd) in H. cbv zeta in H.
        apply bindC_Normal in H as (stamp & E1 & H).
        apply bindC_Normal in H as (ev & E2 & H).
        apply bindC_Normal in H as (id & E3 & H).
        exists stamp, ev, id. inversion H. auto.
      * intros (Hnv & Hnd & stamp & ev & id & E1 & E2 & E3 & ->).
        rewrite (parseEnvelope_present _ v Hv Hnv Hnd). cbv zeta.
        rewrite E1, E2, E3. reflexivity.
    + intros Hnv Hnd Pe Pi Pu.
      rewrite (parseEnvelope_present _ v Hv Hnv Hnd). cbv zeta.
      destruct (Date_getTime_primitive _ Pu) as [stamp ->].
      destruct (ToString_primitive _ Pe) as [ev ->].
      destruct (ToString_primitive _ Pi) as [id ->]. cbn [bindC]. eauto.
Qed.

End Reading.

(** ** The delivery *)

Section Sink.
Context `{RT : Runtime} (cfg : Config).

(** X11: when a request is decided Completed and its embed is built, the
    embed is posted once to the configured URL, and the sink's answer alone
    decides the reply: a status from 200 to 299 gives 200 "Sequence
    complete" and nothing on the log; any other status gives 500 and the log
    line "Discord API error: " followed by that status; a fetch that is
    rejected gives 500 as well.  In each case the record is consumed
    already. *)
Theorem delivery_outcome (req : Request) (env : Env) (s : Store) (cachedRecord : PendingRecord)
        (envelope : Envelope) (embed : Embed) (url : string) :
  decision_of cfg req s = Some (Completed cachedRecord) ->
  parseEnvelope (body req) = Normal envelope ->
  buildEmbed envelope (now env) = Normal embed ->
  DiscordWebhookUrl cfg = Some url ->
  let w := webhook cfg req env s in
  (exists a b logged,
     effects w = Compare a b :: Fetch (Some url) embed :: logged
     /\ (forall code,
           sink env = Replied code -> 200 <= code <= 299 ->
           response w = {| status := 200; text := "Sequence complete" |} /\ logged = [])
     /\ (forall code,
           sink env = Replied code -> ~ (200 <= code <= 299) ->
           response w = internal_error
           /\ logged = [ConsoleError (Error ("Discord API error: " +:+ pretty code))])
     /\ (sink env = Unreachable ->
         response w = internal_error /\ logged = [ConsoleError TypeError]))
  /\ sequenceMap (after w) !! sequenceKey envelope = None.
Proof.
  intros Hd He Hb Hurl. cbv zeta.
  destruct (decision_of_Some cfg req s _ Hd) as (Ha & _).
  destruct (webhook_authentic_parsed cfg req envelope Ha He) as [eb Hw].
  rewrite (Hw env s), Hd, Hb. cbn [response after effects].
  unfold sink_ok, delivery_fault. rewrite Hurl. split.
  - do 3 eexists. split; [reflexivity|]. split; [|split].
    + intros code -> Hc.
      assert (E : (200 <=? code) && (code <=? 299) = true).
      { apply andb_true_iff. split; apply Z.leb_le; lia. }
      rewrite E. auto.
    + intros code -> Hc.
      assert (E : (200 <=? code) && (code <=? 299) = false).
      { apply andb_false_iff.
        destruct (Z.leb_spec 200 code); [|auto]. destruct (Z.leb_spec code 299); [|auto].
        exfalso. apply Hc. lia. }
      rewrite E. auto.
    + intros ->. auto.
  - rewrite (decision_of_authentic cfg req s envelope Ha He) in Hd. rewrite observed_at_key.
    destruct (sequenceMap s !! sequenceKey envelope) as [r'|]; [|discriminate].
    destruct (in_window _ _); [reflexivity|discriminate].
Qed.

End Sink.

(** ** Time values *)

(** A time value: NaN, or a number of milliseconds within the range of a
    Date. *)
Lemma TimeClip_range (t : number) :
  TimeClip t = NaN
  \/ exists z, TimeClip t = Num z /\ - 8640000000000000 <= z <= 8640000000000000.
Proof.
  destruct t as [|z]; simpl; [auto|].
  destruct (Z.leb_spec (Z.abs z) 8640000000000000); [|auto].
  right. exists z. split; [reflexivity|lia].
Qed.

Section TimeValues.
Context `{RT : Runtime} (cfg : Config).

Lemma Date_getTime_range (v : jsval) (t : number) :
  Date_getTime v = Normal t ->
  t = NaN \/ exists z, t = Num z /\ - 8640000000000000 <= z <= 8640000000000000.
Proof.
  destruct v as [| |b|n|str|items|members]; cbn [Date_getTime].
  - intros H. inversion H. auto.
  - intros H. inversion H. right. exists 0. split; [reflexivity|lia].
  - intros H. inversion H. right. destruct b; eexists; (split; [reflexivity|lia]).
  - intros H. inversion H. apply (TimeClip_range (Num n)).
  - intros H. inversion H. apply (TimeClip_range (Date_parse str)).
  - intros H. apply bindC_Normal in H as (text & _ & H). inversion H.
    apply (TimeClip_range (Date_parse text)).
  - intros H. apply bindC_Normal in H as (text & _ & H). inversion H.
    apply (TimeClip_range (Date_parse text)).
Qed.

(** The timestamp of an envelope is a time value. *)
Lemma parseEnvelope_timestamp (RequestBody : list byte) (e : Envelope) :
  parseEnvelope RequestBody = Normal e ->
  incomingTimestamp e = NaN
  \/ exists z, incomingTimestamp e = Num z /\ - 8640000000000000 <= z <= 8640000000000000.
Proof.
  unfold parseEnvelope. destruct (JSON_parse RequestBody) as [v|]; [|discriminate].
  intros H.
  apply bindC_Normal in H as (event & _ & H).
  apply bindC_Normal in H as (action & _ & H).
  apply bindC_Normal in H as (data & _ & H).
  apply bindC_Normal in H as (activity & _ & H).
  apply bindC_Normal in H as (updated_at & _ & H).
  apply bindC_Normal in H as (stamp & Hstamp & H).
  apply bindC_Normal in H as (id & _ & H).
  apply bindC_Normal in H as (event_text & _ & H).
  apply bindC_Normal in H as (id_text & _ & H).
  inversion H. cbn [incomingTimestamp]. exact (Date_getTime_range _ _ Hstamp).
Qed.

(** X12: on a server that started with an empty table, the timestamp of
    every record and the stamp of every timer that waits is NaN or a number
    of milliseconds that a Date can hold, at most 8 640 000 000 000 000 in
    absolute value: whatever [updated_at] a payload carries, [new
    Date(...).getTime()] stores nothing else. *)
Theorem pending_timestamps_are_time_values (inputs : list Input) :
  (forall k r,
     sequenceMap (run cfg inputs init) !! k = Some r ->
     timestamp r = NaN
     \/ exists z, timestamp r = Num z /\ - 8640000000000000 <= z <= 8640000000000000)
  /\ (forall t,
        In t (timers (run cfg inputs init)) ->
        timer_stamp t = NaN
        \/ exists z, timer_stamp t = Num z /\ - 8640000000000000 <= z <= 8640000000000000).
Proof.
  split.
  - intros k r H. apply run_lookup_origin in H as [H | (req & env & e & _ & _ & He & _ & ->)].
    + unfold init in H. cbn [sequenceMap] in H. rewrite lookup_empty in H. discriminate.
    + cbn [timestamp]. exact (parseEnvelope_timestamp _ _ He).
  - intros t H. apply run_timer_origin in H as [[] | (req & env & e & _ & _ & He & ->)].
    cbn [timer_stamp]. exact (parseEnvelope_timestamp _ _ He).
Qed.

End TimeValues.

(** ** A record that a reset leaves *)

Lemma num_strict_eq_neq (a b : number) : a <> b -> num_strict_eq a b = false.
Proof.
  intros H. destruct (num_strict_eq a b) eqn:E; [|reflexivity].
  apply num_strict_eq_true in E as (z & -> & ->). destruct H. reflexivity.
Qed.

Section Pinned.
Context `{RT : Runtime} (cfg : Config).

(** A record that none of the waiting timers of its key was set for stays,
    while no request comes for its key. *)
Lemma record_without_timer_stays (k : string) (r : PendingRecord) (inputs : list Input) :
  forall s : Store,
    sequenceMap s !! k = Some r ->
    (forall t, In t (timers s) -> timer_key t = k -> timer_stamp t <> timestamp r) ->
    leave_alone cfg k inputs ->
    sequenceMap (run cfg inputs s) !! k = Some r.
Proof.
  induction inputs as [|i inputs IH]; intros s Hr Ht Hl; [exact Hr|].
  pose proof (leave_alone_cons cfg _ _ _ Hl) as Hl'.
  cbn [run]. apply IH; [| |exact Hl'].
  - destruct i as [req env|]; cbn [step].
    + rewrite (webhook_other_key cfg req env s k); [exact Hr|].
      intros e Ha He. apply (Hl req env e); [left; reflexivity|exact Ha|exact He].
    + unfold fire. destruct (timers s) as [|t0 rest] eqn:E; [exact Hr|].
      cbn [sequenceMap]. destruct (decide (k = timer_key t0)) as [->|Hne].
      * rewrite (expiry_other_stamp t0 _ r Hr); [exact Hr|].
        apply num_strict_eq_neq. intros Heq. apply (Ht t0); [left; reflexivity|reflexivity|].
        symmetry. exact Heq.
      * rewrite expiry_other_key by exact Hne. exact Hr.
  - intros t Hin Hk. apply step_timer_origin in Hin as [Hin | (req & env & e & -> & Ha & He & ->)].
    + destruct i as [req env|]; [exact (Ht t Hin Hk)|exact (Ht t Hin Hk)].
    + exfalso. apply (Hl req env e); [left; reflexivity|exact Ha|exact He|exact Hk].
Qed.

(** X13: a request decided Reset stores its observation and sets no timer;
    if none of the timers that wait for its key carries its timestamp, the
    record is then out of reach of every expiry: it is still in the table
    after any sequence of expiries and of requests for other keys, until
    another event of its key arrives. *)
Theorem reset_record_is_pinned (req : Request) (env : Env) (s : Store) (e : Envelope)
        (inputs : list Input) :
  authentic cfg req = true ->
  parseEnvelope (body req) = Normal e ->
  decision_of cfg req s = Some Reset ->
  (forall t, In t (timers s) -> timer_key t = sequenceKey e ->
             timer_stamp t <> incomingTimestamp e) ->
  (forall req' env' e',
     In (Deliver req' env') inputs -> authentic cfg req' = true ->
     parseEnvelope (body req') = Normal e' -> sequenceKey e' <> sequenceKey e) ->
  timers (after (webhook cfg req env s)) = timers s
  /\ sequenceMap (run cfg (Deliver req env :: inputs) s) !! sequenceKey e
     = Some {| timestamp := incomingTimestamp e; action := e_action e |}.
Proof.
  intros Ha He Hd Ht Hl.
  rewrite (decision_of_authentic cfg req s e Ha He) in Hd.
  assert (Htimers : timers (after (webhook cfg req env s)) = timers s).
  { rewrite (webhook_after_authentic cfg req env s e Ha He), observed_timers.
    destruct (sequenceMap s !! sequenceKey e); [reflexivity|discriminate]. }
  split; [exact Htimers|].
  cbn [run step]. apply record_without_timer_stays.
  - rewrite (webhook_after_authentic cfg req env s e Ha He), observed_at_key.
    destruct (sequenceMap s !! sequenceKey e) as [r|]; [|discriminate].
    destruct (in_window _ _); [discriminate|reflexivity].
  - rewrite Htimers. exact Ht.
  - exact Hl.
Qed.

End Pinned.

(** ** Requests for different keys *)

Section Independence.
Context `{RT : Runtime} (cfg : Config).

(** The reply to an authentic request depends on the store through the
    record of its key only. *)
Lemma webhook_reads_its_key (req : Request) (env : Env) (s1 s2 : Store) (e : Envelope) :
  authentic cfg req = true -> parseEnvelope (body req) = Normal e ->
  sequenceMap s1 !! sequenceKey e = sequenceMap s2 !! sequenceKey e ->
  response (webhook cfg req env s1) = response (webhook cfg req env s2)
  /\ effects (webhook cfg req env s1) = effects (webhook cfg req env s2).
Proof.
  intros Ha He Hk. destruct (webhook_authentic_parsed cfg req e Ha He) as [eb Hw].
  rewrite (Hw env s1), (Hw env s2), !(decision_of_authentic cfg req _ e Ha He), Hk.
  destruct (sequenceMap s2 !! sequenceKey e) as [r|]; [|auto].
  destruct (in_window _ _); [|auto].
  destruct (buildEmbed e (now env)); auto.
Qed.

(** The table after [observe], at any key. *)
Lemma observed_lookup (e : Envelope) (s : Store) (k : string) :
  sequenceMap (observed e s) !! k =
  if decide (k = sequenceKey e) then
    match sequenceMap s !! sequenceKey e with
    | Some r =>
        if in_window (incomingTimestamp e) (timestamp r) then None
        else Some {| timestamp := incomingTimestamp e; action := e_action e |}
    | None => Some {| timestamp := incomingTimestamp e; action := e_action e |}
    end
  else sequenceMap s !! k.
Proof.
  destruct (decide (k = sequenceKey e)) as [->|Hne].
  - apply observed_at_key.
  - apply observed_other_key. exact Hne.
Qed.

(** X14: two authentic requests whose sequence keys differ do not see each
    other: each gets the reply, and makes the calls, it would have got and
    made alone, and the table they leave is the same in either order. *)
Theorem requests_for_different_keys_commute (req1 req2 : Request) (env1 env2 : Env)
        (s : Store) (e1 e2 : Envelope) :
  authentic cfg req1 = true -> parseEnvelope (body req1) = Normal e1 ->
  authentic cfg req2 = true -> parseEnvelope (body req2) = Normal e2 ->
  sequenceKey e1 <> sequenceKey e2 ->
  response (webhook cfg req2 env2 (after (webhook cfg req1 env1 s)))
  = response (webhook cfg req2 env2 s)
  /\ effects (webhook cfg req2 env2 (after (webhook cfg req1 env1 s)))
     = effects (webhook cfg req2 env2 s)
  /\ sequenceMap (run cfg [Deliver req1 env1; Deliver req2 env2] s)
     = sequenceMap (run cfg [Deliver req2 env2; Deliver req1 env1] s).
Proof.
  intros Ha1 He1 Ha2 He2 Hne.
  assert (H2 : sequenceMap (after (webhook cfg req1 env1 s)) !! sequenceKey e2
               = sequenceMap s !! sequenceKey e2).
  { rewrite (webhook_after_authentic cfg req1 env1 s e1 Ha1 He1).
    apply observed_other_key. congruence. }
  destruct (webhook_reads_its_key req2 env2 _ s e2 Ha2 He2 H2) as [Hresp Heff].
  split; [exact Hresp|]. split; [exact Heff|].
  cbn [run step].
  rewrite (webhook_after_authentic cfg req2 env2 _ e2 Ha2 He2).
  rewrite (webhook_after_authentic cfg req1 env1 s e1 Ha1 He1).
  rewrite (webhook_after_authentic cfg req1 env1 _ e1 Ha1 He1).
  rewrite (webhook_after_authentic cfg req2 env2 s e2 Ha2 He2).
  apply map_eq. intros k. rewrite !observed_lookup.
  destruct (decide (k = sequenceKey e2)) as [Hk2|Hk2];
    destruct (decide (k = sequenceKey e1)) as [Hk1|Hk1].
  - destruct Hne. congruence.
  - subst k. destruct (decide (sequenceKey e2 = sequenceKey e1)); [congruence|reflexivity].
  - subst k. destruct (decide (sequenceKey e1 = sequenceKey e2)); [congruence|reflexivity].
  - reflexivity.
Qed.

End Independence.

(** ** When the embed cannot be built *)

Lemma is_string_field_state (field : jsval) :
  is_string (nullish_or field (JStr "No field data")) "state" = true <-> field = JStr "state".
Proof.
  rewrite is_string_true. destruct field; simpl; split; congruence.
Qed.

(** X15: how the construction of the embed (lines 109-138) can fault, and
    it faults with a TypeError only: when the activity's field is "state"
    and its new value does not convert to a string; when [event] or [action]
    is no string; when [data] is null or missing; or when the entity's name,
    or its id when the name is falsy, does not convert to a string.  For
    every other envelope the embed is built. *)
Theorem buildEmbed_faults_iff (e : Envelope) (nowISO : string) :
  let data := e_data e in
  let entity := if truthy (optget data "name") then optget data "name" else optget data "id" in
  (forall x, buildEmbed e nowISO = Throw x -> x = TypeError)
  /\ ((exists x, buildEmbed e nowISO = Throw x) <->
      (optget (e_activity e) "field" = JStr "state"
       /\ exists x, ToString (nullish_or (optget (e_activity e) "new_value") (JStr "Unknown"))
                    = Throw x)
      \/ (forall ev, e_event e <> JStr ev)
      \/ (forall ac, e_action e <> JStr ac)
      \/ nullish data = true
      \/ (nullish data = false /\ exists x, ToString entity = Throw x)).
Proof.
  cbv zeta.
  assert (Hfwd : forall x, buildEmbed e nowISO = Throw x ->
            x = TypeError
            /\ ((optget (e_activity e) "field" = JStr "state"
                 /\ exists x, ToString (nullish_or (optget (e_activity e) "new_value")
                                                   (JStr "Unknown")) = Throw x)
                \/ (forall ev, e_event e <> JStr ev)
                \/ (forall ac, e_action e <> JStr ac)
                \/ nullish (e_data e) = true
                \/ (nullish (e_data e) = false
                    /\ exists x, ToString (if truthy (optget (e_data e) "name")
                                           then optget (e_data e) "name"
                                           else optget (e_data e) "id") = Throw x))).
  { intros x. unfold buildEmbed. cbv zeta.
    destruct (is_string _ "state") eqn:Hstate.
    - apply is_string_field_state in Hstate.
      destruct (ToString (nullish_or (optget (e_activity e) "new_value") (JStr "Unknown")))
        as [text|x1] eqn:E1; cbn [bindC].
      2: { intros H. inversion H. subst x1. split; [exact (ToString_fault _ _ E1)|].
           left. eauto. }
      destruct (e_event e) as [| |b|n|ev|items|members] eqn:Eev; cbn [call_toUpperCase bindC];
        try (intros H; inversion H; split; [reflexivity|]; right; left; intros ev'; discriminate).
      destruct (e_action e) as [| |b|n|ac|items|members] eqn:Eac; cbn [call_toUpperCase bindC];
        try (intros H; inversion H; split; [reflexivity|]; right; right; left; intros ac';
             discriminate).
      destruct (nullish (e_data e)) eqn:Hd.
      { rewrite (get_nullish _ _ Hd). cbn [bindC]. intros H. inversion H. auto 10. }
      rewrite !(get_present _ _ Hd). cbn [bindC].
      destruct (ToString (if truthy _ then _ else _)) as [entity|x2] eqn:E2; cbn [bindC];
        [discriminate|].
      intros H. inversion H. subst x2. split; [exact (ToString_fault _ _ E2)|].
      right. right. right. right. eauto.
    - cbn [bindC].
      destruct (e_event e) as [| |b|n|ev|items|members] eqn:Eev; cbn [call_toUpperCase bindC];
        try (intros H; inversion H; split; [reflexivity|]; right; left; intros ev'; discriminate).
      destruct (e_action e) as [| |b|n|ac|items|members] eqn:Eac; cbn [call_toUpperCase bindC];
        try (intros H; inversion H; split; [reflexivity|]; right; right; left; intros ac';
             discriminate).
      destruct (nullish (e_data e)) eqn:Hd.
      { rewrite (get_nullish _ _ Hd). cbn [bindC]. intros H. inversion H. auto 10. }
      rewrite !(get_present _ _ Hd). cbn [bindC].
      destruct (ToString (if truthy _ then _ else _)) as [entity|x2] eqn:E2; cbn [bindC];
        [discriminate|].
      intros H. inversion H. subst x2. split; [exact (ToString_fault _ _ E2)|].
      right. right. right. right. eauto. }
  split; [intros x H; exact (proj1 (Hfwd x H))|].
  split; [intros [x H]; exact (proj2 (Hfwd x H))|].
  intros Hbad. destruct (buildEmbed e nowISO) as [payload|x] eqn:Hb; [exfalso|eauto].
  unfold buildEmbed in Hb. cbv zeta in Hb.
  apply bindC_Normal in Hb as (content & Hcontent & Hb).
  apply bindC_Normal in Hb as (EVENT & Hev & Hb).
  apply bindC_Normal in Hb as (ACTION & Hac & Hb).
  apply bindC_Normal in Hb as (data_name & Hname & Hb).
  apply bindC_Normal in Hb as (data_id & Hid & Hb).
  apply bindC_Normal in Hb as (entity & Hentity & _).
  apply call_toUpperCase_Normal in Hev as (ev & Hev & _).
  apply call_toUpperCase_Normal in Hac as (ac & Hac & _).
  destruct Hbad as [(Hfield & x & Hx) | [Hno | [Hno | [Hd | (Hd & x & Hx)]]]].
  - rewrite (proj2 (is_string_field_state _) Hfield), Hx in Hcontent. discriminate.
  - exact (Hno ev Hev).
  - exact (Hno ac Hac).
  - rewrite (get_nullish _ _ Hd) in Hname. discriminate.
  - rewrite (get_present _ _ Hd) in Hname. rewrite (get_present _ _ Hd) in Hid.
    inversion Hname. inversion Hid. subst.
    rewrite Hx in Hentity. discriminate.
Qed.

(** * Examples *)

(** ** The examples, run *)

Section ScenarioFacts.
Import Reference Scenario.
#[local] Existing Instance runtime.

(** The reference runtime on known values: SHA-256 of "abc" (FIPS 180-4),
    HMAC-SHA256 of RFC 4231's second test case, the signature of [first],
    its JSON, and the time value of T. *)
Example reference_runtime_values :
  hex (sha256 (map Z_of_byte (Buffer_from "abc")))
  = "ba7816bf8f01cfea414140de5dae2223b00361a396177a9cb410ff61f20015ad"
  /\ hmac_hex "Jefe" (Buffer_from "what do ya want for nothing?")
     = "5bdcc146bf60754e6a042426089575c75a003f089d2739839dec58b964ec3843"
  /\ x_plane_signature first
     = Some "64120913f9716ec23214f934709591766969fa1f2a5e5e6aa0885b8c1036cddb"
  /\ read_json (body first)
     = Some (JObj [("event", JStr "issue"); ("action", JStr "updated");
                   ("data", JObj [("id", JNum 7);
                                  ("updated_at", JStr "2024-01-01T00:00:00.000Z");
                                  ("name", JStr "Fix login")])])
  /\ read_time "2024-01-01T00:00:00.000Z" = Num T.
Proof. vm_compute. repeat split. Qed.

(** The first request on a fresh server is cached. *)
Example first_request_is_cached :
  webhook cfg first world init
  = {| response := {| status := 200; text := "Initial event cached" |};
       after := cached;
       effects := [Compare (Buffer_from "64120913f9716ec23214f934709591766969fa1f2a5e5e6aa0885b8c1036cddb")
                           (Buffer_from "64120913f9716ec23214f934709591766969fa1f2a5e5e6aa0885b8c1036cddb")] |}.
Proof. vm_compute. reflexivity. Qed.

(** The scenario's requests carry their signatures, and their envelopes are
    the ones written out above. *)
Lemma scenario_authentic_computed :
  authentic cfg first = true /\ authentic cfg second = true /\ authentic cfg at_window = true
  /\ authentic cfg late = true /\ authentic cfg early = true /\ authentic cfg undated = true.
Proof. vm_compute. repeat split. Defined.

Lemma scenario_envelopes_computed :
  parseEnvelope (body first) = Normal first_envelope
  /\ parseEnvelope (body second) = Normal second_envelope
  /\ parseEnvelope (body at_window) = Normal at_window_envelope
  /\ parseEnvelope (body late) = Normal late_envelope
  /\ parseEnvelope (body early) = Normal early_envelope
  /\ parseEnvelope (body undated) = Normal undated_envelope.
Proof. vm_compute. repeat split. Defined.

(** The decisions on [first] and on the events that follow it at T + 500,
    T, T + 1500, T + 2000 and T - 1000. *)
Lemma observe_decision_and_table_witness :
  decision_of cfg first init = Some Cached
  /\ sequenceMap (after (webhook cfg first world init)) !! "issue:7" = Some pending
  /\ decision_of cfg second cached = Some (Completed pending)
  /\ sequenceMap (after (webhook cfg second world cached)) !! "issue:7" = None
  /\ decision_of cfg first cached = Some (Completed pending)
  /\ decision_of cfg at_window cached = Some Reset
  /\ decision_of cfg late cached = Some Reset
  /\ decision_of cfg early cached = Some Reset
  /\ sequenceMap (after (webhook cfg early world cached)) !! "issue:7"
     = Some {| timestamp := Num (T - 1000); action := JStr "updated" |}.
Proof.
  destruct scenario_authentic_computed as (A1 & A2 & A3 & A4 & A5 & _).
  destruct scenario_envelopes_computed as (E1 & E2 & E3 & E4 & E5 & _).
  pose proof (observe_decision_and_table cfg first world init first_envelope A1 E1)
    as (H1 & _).
  pose proof (observe_decision_and_table cfg second world cached second_envelope A2 E2)
    as (_ & H2 & _).
  pose proof (observe_decision_and_table cfg first world cached first_envelope A1 E1)
    as (_ & H3 & _).
  pose proof (observe_decision_and_table cfg at_window world cached at_window_envelope A3 E3)
    as (_ & _ & H4 & _).
  pose proof (observe_decision_and_table cfg late world cached late_envelope A4 E4)
    as (_ & _ & H5 & _).
  pose proof (observe_decision_and_table cfg early world cached early_envelope A5 E5)
    as (_ & _ & H6 & _).
  cbv zeta in *.
  destruct (H1 ltac:(reflexivity)) as (D1 & _ & L1).
  destruct (H2 pending (T + 500) T ltac:(reflexivity) eq_refl eq_refl ltac:(unfold T; lia))
    as (D2 & _ & L2).
  destruct (H3 pending T T ltac:(reflexivity) eq_refl eq_refl ltac:(lia)) as (D3 & _).
  assert (forall d : Z, ~ (0 <= d - T < 1500) ->
            ~ (exists x y, Num d = Num x /\ Num T = Num y /\ 0 <= x - y < 1500)) as outside.
  { intros d Hd (x & y & Hx & Hy & Hxy). inversion Hx. inversion Hy. subst. exact (Hd Hxy). }
  destruct (H4 pending ltac:(reflexivity) (outside (T + 1500) ltac:(lia))) as (D4 & _).
  destruct (H5 pending ltac:(reflexivity) (outside (T + 2000) ltac:(lia))) as (D5 & _).
  destruct (H6 pending ltac:(reflexivity) (outside (T - 1000) ltac:(lia))) as (D6 & _ & L6).
  split; [exact D1|]. split; [exact L1|]. split; [exact D2|]. split; [exact L2|].
  split; [exact D3|]. split; [exact D4|]. split; [exact D5|]. split; [exact D6|exact L6].
Defined.

(** C2, on the code: a request decided Reset schedules no expiry; so after a
    first event at T and a second at T + 2000 ms, which resets the record,
    the table holds the second event's record and the only timer pending is
    the first event's; when it fires it changes nothing, and the record is
    then covered by no expiry at all: it stays, however many expiries are
    awaited. *)
Theorem reset_record_is_left_without_expiry :
  (forall (RT' : Runtime) (c : Config) (req : Request) (env : Env) (s : Store),
     @decision_of RT' c req s = Some Reset ->
     timers (after (@webhook RT' c req env s)) = timers s)
  /\ decision_of cfg late cached = Some Reset
  /\ run cfg [Deliver first world; Deliver late world] init = after_reset
  /\ run cfg [Deliver first world; Deliver late world; Tick] init = orphaned
  /\ forall n, run cfg ([Deliver first world; Deliver late world; Tick] ++ repeat Tick n) init
               = orphaned.
Proof.
  assert (H3 : run cfg [Deliver first world; Deliver late world; Tick] init = orphaned)
    by (vm_compute; reflexivity).
  split; [intros RT' c req env s; apply reset_request_schedules_nothing|].
  split; [vm_compute; reflexivity|].
  split; [vm_compute; reflexivity|]. split; [exact H3|].
  intros n.
  assert (Happ : forall l1 l2 s, run cfg (l1 ++ l2) s = run cfg l2 (run cfg l1 s)).
  { induction l1 as [|i l1 IH]; intros l2 s; [reflexivity|]. cbn [app run]. apply IH. }
  rewrite Happ, H3. apply ticks_without_timers. reflexivity.
Qed.

(** The expiry of the first event removes its record and leaves the record
    that replaced it. *)
Lemma expiry_removes_only_its_own_record_witness :
  expiry {| timer_key := "issue:7"; timer_stamp := Num T |} (sequenceMap cached)
  = delete "issue:7" (sequenceMap cached)
  /\ expiry {| timer_key := "issue:7"; timer_stamp := Num T |} (sequenceMap after_reset)
     = sequenceMap after_reset.
Proof.
  split.
  - apply (proj1 (proj2 (proj2 (proj2
             (expiry_removes_only_its_own_record
                {| timer_key := "issue:7"; timer_stamp := Num T |} (sequenceMap cached)))))
             pending T); reflexivity.
  - apply (proj1 (proj2 (proj2
             (expiry_removes_only_its_own_record
                {| timer_key := "issue:7"; timer_stamp := Num T |} (sequenceMap after_reset))))
             reset_record); [reflexivity|].
    unfold T. simpl. intros H. inversion H.
Defined.

(** A signature that is too short is answered 403 and changes nothing. *)
Lemma rejected_request_leaves_store_witness :
  after (webhook cfg short_signature world cached) = cached
  /\ sequenceMap (after (webhook cfg short_signature world cached)) = sequenceMap cached
  /\ timers (after (webhook cfg short_signature world cached)) = timers cached
  /\ forallb (fun e => negb (is_fetch e)) (effects (webhook cfg short_signature world cached))
     = true.
Proof.
  apply (rejected_request_leaves_store cfg short_signature world cached).
  right. vm_compute. reflexivity.
Defined.

(** The claim of C4 fails on an empty signature header: its byte length, 0,
    is not that of the digest, and the answer is 401, not 403. *)
Lemma empty_signature_is_answered_401 :
  x_plane_signature empty_signature = Some ""
  /\ length (Buffer_from "") = 0%nat
  /\ length (Buffer_from (createHmac_sha256_hex "s3cret" (body empty_signature))) = 64%nat
  /\ response (webhook cfg empty_signature world init) = unauthorized
  /\ status (response (webhook cfg empty_signature world init)) <> 403.
Proof.
  split; [reflexivity|]. split; [reflexivity|]. split; [vm_compute; reflexivity|].
  split; [vm_compute; reflexivity|]. vm_compute. discriminate.
Qed.

(** A signature of eight bytes is answered 403 with no comparison. *)
Lemma length_mismatch_never_compared_witness :
  webhook cfg short_signature world cached
  = {| response := forbidden; after := cached; effects := [] |}.
Proof.
  apply (proj1 (length_mismatch_never_compared cfg short_signature world cached)
           "s3cret" "deadbeef").
  - reflexivity.
  - reflexivity.
  - discriminate.
  - vm_compute. discriminate.
Defined.

(** The claim of C5 fails on a signed payload that lacks [data.id],
    [data.updated_at] and [data.name]: it is answered 200 and cached. *)
Lemma envelope_without_fields_is_cached :
  authentic cfg bare = true
  /\ JSON_parse (body bare)
     = Some (JObj [("event", JStr "issue"); ("action", JStr "updated"); ("data", JObj [])])
  /\ response (webhook cfg bare world init)
     = {| status := 200; text := "Initial event cached" |}
  /\ status (response (webhook cfg bare world init)) <> 500.
Proof.
  split; [vm_compute; reflexivity|]. split; [vm_compute; reflexivity|].
  split; [vm_compute; reflexivity|]. vm_compute. discriminate.
Qed.

(** No signature: 401.  A forged one: 403.  No JSON, or no [data]: 500 and
    nothing sent.  A sink that answers 503: 500. *)
Lemma status_taxonomy_witness :
  response (webhook cfg unsigned world cached) = unauthorized
  /\ response (webhook cfg forged world cached) = forbidden
  /\ (response (webhook cfg garbled world cached) = internal_error
      /\ after (webhook cfg garbled world cached) = cached
      /\ forallb (fun e => negb (is_fetch e)) (effects (webhook cfg garbled world cached)) = true)
  /\ (response (webhook cfg no_data world cached) = internal_error
      /\ after (webhook cfg no_data world cached) = cached
      /\ forallb (fun e => negb (is_fetch e)) (effects (webhook cfg no_data world cached)) = true)
  /\ response (webhook cfg second outage cached) = internal_error.
Proof.
  split.
  { apply (proj1 (status_taxonomy cfg unsigned world cached)). right. reflexivity. }
  split.
  { apply (proj1 (proj2 (status_taxonomy cfg forged world cached)) "s3cret"
             "0000000000000000000000000000000000000000000000000000000000000000").
    - reflexivity.
    - reflexivity.
    - vm_compute. discriminate. }
  split.
  { apply (proj1 (proj2 (proj2 (status_taxonomy cfg garbled world cached)))).
    - vm_compute. reflexivity.
    - left. vm_compute. reflexivity. }
  split.
  { apply (proj1 (proj2 (proj2 (status_taxonomy cfg no_data world cached)))).
    - vm_compute. reflexivity.
    - right. exists (JObj [("event", JStr "issue"); ("action", JStr "updated")]).
      split; [vm_compute; reflexivity|]. left. reflexivity. }
  apply (proj2 (proj2 (proj2 (status_taxonomy cfg second outage cached)))
           (DiscordWebhookUrl cfg) done_embed).
  - vm_compute. right. left. reflexivity.
  - reflexivity.
Defined.

(** The claim of C6 fails on two creations of one issue that differ in name,
    activity and actor: they leave the same store, so that the completing
    request is decided and answered alike after either, with an embed that
    holds nothing of them; what the handler keeps does not give the original
    envelope back. *)
Lemma original_context_is_not_kept :
  parseEnvelope (body original_a) <> parseEnvelope (body original_b)
  /\ after (webhook cfg original_a world init) = after (webhook cfg original_b world init)
  /\ decision_of cfg second (after (webhook cfg original_a world init))
     = Some (Completed {| timestamp := Num T; action := JStr "created" |})
  /\ webhook cfg second world (after (webhook cfg original_a world init))
     = webhook cfg second world (after (webhook cfg original_b world init))
  /\ In (Fetch (DiscordWebhookUrl cfg) done_embed)
        (effects (webhook cfg second world (after (webhook cfg original_a world init))))
  /\ ~ (exists recover : Store -> Envelope,
          forall original e,
            authentic cfg original = true -> parseEnvelope (body original) = Normal e ->
            recover (after (webhook cfg original world init)) = e).
Proof.
  assert (Hne : parseEnvelope (body original_a) <> parseEnvelope (body original_b))
    by (vm_compute; discriminate).
  assert (Hsame : after (webhook cfg original_a world init)
                  = after (webhook cfg original_b world init))
    by (vm_compute; reflexivity).
  split; [exact Hne|]. split; [exact Hsame|].
  split; [vm_compute; reflexivity|].
  split; [rewrite Hsame; reflexivity|].
  split; [vm_compute; right; left; reflexivity|].
  intros [recover Hrec].
  pose (ea := match parseEnvelope (body original_a) with
              | Normal e => e
              | Throw _ => first_envelope
              end).
  pose (eb := match parseEnvelope (body original_b) with
              | Normal e => e
              | Throw _ => first_envelope
              end).
  assert (Ea : parseEnvelope (body original_a) = Normal ea) by (vm_compute; reflexivity).
  assert (Eb : parseEnvelope (body original_b) = Normal eb) by (vm_compute; reflexivity).
  pose proof (Hrec original_a ea ltac:(vm_compute; reflexivity) Ea) as Ha.
  pose proof (Hrec original_b eb ltac:(vm_compute; reflexivity) Eb) as Hb.
  rewrite Hsame, Hb in Ha. apply Hne. rewrite Ea, Eb, Ha. reflexivity.
Qed.

(** [second] completes the record of [first]; what it sends is built from
    its own envelope. *)
Lemma completed_embed_from_new_envelope_witness :
  exists e,
    parseEnvelope (body second) = Normal e
    /\ sequenceMap cached !! sequenceKey e = Some pending
    /\ forall url payload,
         In (Fetch url payload) (effects (webhook cfg second world cached)) ->
         buildEmbed e (now world) = Normal payload.
Proof.
  apply (proj1 (completed_embed_from_new_envelope cfg second world) cached pending).
  vm_compute. reflexivity.
Defined.

(** The claim of C7 fails on a signed payload with no [event], sent twice:
    the second is Completed (the record is consumed) and is answered 500
    with no delivery. *)
Lemma completed_without_delivery :
  after (webhook cfg no_event world init) = no_event_cached
  /\ decision_of cfg no_event no_event_cached = Some (Completed pending)
  /\ response (webhook cfg no_event world no_event_cached) = internal_error
  /\ forallb (fun e => negb (is_fetch e)) (effects (webhook cfg no_event world no_event_cached))
     = true
  /\ sequenceMap (after (webhook cfg no_event world no_event_cached)) !! "undefined:7" = None.
Proof.
  split; [vm_compute; reflexivity|]. split; [vm_compute; reflexivity|].
  split; [vm_compute; reflexivity|]. split; vm_compute; reflexivity.
Qed.

(** [second] after [first] is delivered; [first] alone and [late] after
    [first] are answered 200 with no delivery. *)
Lemma delivery_iff_completed_and_built_witness :
  In (Fetch (DiscordWebhookUrl cfg) done_embed) (effects (webhook cfg second world cached))
  /\ (status (response (webhook cfg first world init)) = 200
      /\ forallb (fun e => negb (is_fetch e)) (effects (webhook cfg first world init)) = true)
  /\ (status (response (webhook cfg late world cached)) = 200
      /\ forallb (fun e => negb (is_fetch e)) (effects (webhook cfg late world cached)) = true).
Proof.
  split.
  { apply (proj2 (proj1 (delivery_iff_completed_and_built cfg second world cached)
                   (DiscordWebhookUrl cfg) done_embed)).
    split; [reflexivity|]. exists pending, second_envelope.
    split; [vm_compute; reflexivity|]. split; vm_compute; reflexivity. }
  split.
  { apply (proj1 (proj2 (proj2 (delivery_iff_completed_and_built cfg first world init)))).
    left. vm_compute. reflexivity. }
  apply (proj1 (proj2 (proj2 (delivery_iff_completed_and_built cfg late world cached)))).
  right. vm_compute. reflexivity.
Defined.

(** The embed for [second]: "ISSUE UPDATED", the entity's name, "Issue is
    now in DONE", by Ann. *)
Lemma embed_format_witness :
  (exists payload, buildEmbed second_envelope (now world) = Normal payload)
  /\ title done_embed = toUpperCase "issue" +:+ " " +:+ toUpperCase "updated"
  /\ exists content byline,
       fields done_embed =
         [ {| name := "Type"; value := JStr "state"; inline := Some true |};
           {| name := "By"; value := byline; inline := Some true |};
           {| name := "Content"; value := content; inline := None |} ]
       /\ content = JStr ("Issue is now in " +:+ toUpperCase "done")
       /\ byline = JStr "Ann".
Proof.
  split.
  { apply (proj1 (embed_format second_envelope (now world))
             "issue" "updated" (JStr "Fix login") (JNum 7)); reflexivity. }
  destruct (proj2 (embed_format second_envelope (now world)) done_embed eq_refl)
    as ((ev & ac & Hev & Hac & Htitle) & _ & (content & byline & Hf & Hstate & _ & _ & Hby & _)).
  inversion Hev. inversion Hac. subst ev ac.
  split; [exact (Htitle eq_refl eq_refl)|].
  exists content, byline. split; [exact Hf|].
  destruct (Hstate eq_refl) as (text & Ht & Hc). inversion Ht. subst text.
  split; [exact (Hc eq_refl)|]. exact (Hby eq_refl).
Defined.

(** A record stamped NaN: stored by [undated], kept through expiries and a
    request for another key, reset by the next event of its key. *)
Lemma nan_record_stays_until_reset_witness :
  (decision_of cfg undated init = Some Cached
   /\ sequenceMap (after (webhook cfg undated world init)) !! sequenceKey undated_envelope
      = Some {| timestamp := NaN; action := e_action undated_envelope |}
   /\ timers (after (webhook cfg undated world init))
      = timers init ++ [{| timer_key := sequenceKey undated_envelope; timer_stamp := NaN |}])
  /\ (decision_of cfg second undated_cached = Some Reset
      /\ sequenceMap (after (webhook cfg second world undated_cached))
           !! sequenceKey second_envelope
         = Some {| timestamp := incomingTimestamp second_envelope;
                   action := e_action second_envelope |})
  /\ sequenceMap (run cfg [Tick; Deliver bare world; Tick] undated_cached) !! "issue:7"
     = Some undated_record.
Proof.
  pose proof (nan_record_stays_until_reset cfg) as (_ & H1 & _ & _ & H4 & H5).
  split.
  { apply (H1 undated world init undated_envelope).
    - vm_compute. reflexivity.
    - vm_compute. reflexivity.
    - reflexivity.
    - reflexivity. }
  split.
  { apply (H4 second world undated_cached second_envelope undated_record).
    - vm_compute. reflexivity.
    - vm_compute. reflexivity.
    - reflexivity.
    - reflexivity. }
  apply (H5 [Tick; Deliver bare world; Tick] undated_cached "issue:7" undated_record).
  - reflexivity.
  - reflexivity.
  - intros req env e Hin _ He.
    destruct Hin as [Hin|[Hin|[Hin|[]]]]; try discriminate Hin.
    inversion Hin. subst req env.
    assert (Hb : parseEnvelope (body bare) = Normal bare_envelope) by (vm_compute; reflexivity).
    rewrite Hb in He. inversion He. subst e. discriminate.
Defined.

End ScenarioFacts.

(** ** More examples, run *)

Section ScenarioRuns.
Import Reference Scenario.
#[local] Existing Instance runtime.

(** [bare] carries its signature, and its envelope is the one written out
    above. *)
Lemma scenario_bare_computed :
  authentic cfg bare = true /\ parseEnvelope (body bare) = Normal bare_envelope.
Proof. vm_compute. repeat split. Defined.

(** Neither [bare] nor an expiry is an event of issue 7. *)
Lemma scenario_others_leave_issue_7 :
  forall req' env' e',
    In (Deliver req' env') [Tick; Deliver bare world; Tick] -> authentic cfg req' = true ->
    parseEnvelope (body req') = Normal e' -> sequenceKey e' <> "issue:7".
Proof.
  destruct scenario_bare_computed as [_ Hb].
  intros req' env' e' Hin _ He.
  destruct Hin as [Hin|[Hin|[Hin|[]]]]; try discriminate Hin.
  inversion Hin. subst req' env'. rewrite Hb in He. inversion He. subst e'. discriminate.
Defined.

(** The scenario's server started; a header that is absent or empty is
    answered 401. *)
Lemma started_server_401_iff_no_signature_witness :
  status (response (webhook cfg unsigned world init)) = 401
  /\ status (response (webhook cfg empty_signature world init)) = 401.
Proof.
  split.
  - apply (proj1 (started_server_401_iff_no_signature cfg unsigned world init eq_refl)).
    left. reflexivity.
  - apply (proj1 (started_server_401_iff_no_signature cfg empty_signature world init eq_refl)).
    right. reflexivity.
Defined.

(** [first] carries the digest of its body and gets past the check;
    [forged] carries sixty-four zeros and is answered 403. *)
Lemma signature_accepted_iff_digest_witness :
  (status (response (webhook cfg first world init)) = 200
   \/ status (response (webhook cfg first world init)) = 500)
  /\ status (response (webhook cfg forged world init)) = 403.
Proof.
  split.
  - apply (proj1 (signature_accepted_iff_digest cfg first world init "s3cret" eq_refl)).
    split; [vm_compute; reflexivity|vm_compute; discriminate].
  - apply (proj2 (signature_accepted_iff_digest cfg forged world init "s3cret" eq_refl)).
    exists "0000000000000000000000000000000000000000000000000000000000000000".
    split; [reflexivity|]. split; [discriminate|vm_compute; discriminate].
Defined.

(** [first] is cached, [bare] is cached under another key, and the first
    timer fires: issue 7 is forgotten, and [first] would be first-seen
    again. *)
Lemma cached_record_expires_witness :
  sequenceMap (run cfg [Deliver first world; Deliver bare world; Tick] init) !! "issue:7" = None
  /\ decision_of cfg first (run cfg [Deliver first world; Deliver bare world; Tick] init)
     = Some Cached.
Proof.
  destruct scenario_authentic_computed as (A1 & _).
  destruct scenario_envelopes_computed as (E1 & _).
  apply (cached_record_expires cfg first world init first_envelope T
           [Deliver bare world; Tick] A1 E1 eq_refl eq_refl).
  - intros req' env' e' Hin. apply (scenario_others_leave_issue_7 req' env' e').
    right. exact Hin.
  - simpl. lia.
Defined.

(** [second] completes the record of [first] while the sink refuses: the
    answer is 500, the record is gone all the same, and [second] sent again
    is cached, not delivered. *)
Lemma completed_frees_key_witness :
  response (webhook cfg second outage cached) = internal_error
  /\ sequenceMap (after (webhook cfg second outage cached)) !! "issue:7" = None
  /\ decision_of cfg second (after (webhook cfg second outage cached)) = Some Cached.
Proof.
  destruct scenario_authentic_computed as (_ & A2 & _).
  destruct scenario_envelopes_computed as (_ & E2 & _).
  assert (D : decision_of cfg second cached = Some (Completed pending))
    by (vm_compute; reflexivity).
  destruct (completed_frees_key cfg second outage cached pending D)
    as (e & He & Hm & _ & Hnext & _).
  rewrite E2 in He. inversion He. subst e.
  split; [vm_compute; reflexivity|]. split.
  - rewrite Hm. apply lookup_delete_eq.
  - apply (Hnext second second_envelope A2 E2 eq_refl).
Defined.

(** After [first], [second] is Completed against the record [first] left,
    and so is [first] itself, delivered twice. *)
Lemma next_event_meets_last_observation_witness :
  decision_of cfg second (after (webhook cfg first world init)) = Some (Completed pending)
  /\ decision_of cfg first (after (webhook cfg first world init)) = Some (Completed pending).
Proof.
  destruct scenario_authentic_computed as (A1 & A2 & _).
  destruct scenario_envelopes_computed as (E1 & E2 & _).
  assert (D : decision_of cfg first init = Some Cached) by (vm_compute; reflexivity).
  destruct (next_event_meets_last_observation cfg first second world init
              first_envelope second_envelope A1 E1 A2 E2 eq_refl (or_introl D))
    as (H1 & H2 & _).
  split; [exact H1|exact (H2 T eq_refl)].
Defined.

(** The sink answers 503 to the embed of [second]: the reply is 500 and the
    log names the status. *)
Lemma delivery_outcome_witness :
  response (webhook cfg second outage cached) = internal_error
  /\ In (ConsoleError (Error ("Discord API error: " +:+ pretty 503)))
        (effects (webhook cfg second outage cached))
  /\ In (Fetch (DiscordWebhookUrl cfg) done_embed) (effects (webhook cfg second outage cached)).
Proof.
  destruct scenario_envelopes_computed as (_ & E2 & _).
  assert (D : decision_of cfg second cached = Some (Completed pending))
    by (vm_compute; reflexivity).
  destruct (delivery_outcome cfg second outage cached pending second_envelope done_embed
              "https://discord.example/api/webhooks/1/token" D E2 eq_refl eq_refl)
    as ((a & b & logged & Heff & _ & Hrefused & _) & _).
  destruct (Hrefused 503 eq_refl ltac:(lia)) as [Hresp ->].
  split; [exact Hresp|]. rewrite Heff. split.
  - right. right. left. reflexivity.
  - right. left. reflexivity.
Defined.

(** [late] resets the record of [first]; the only timer that waits is the
    one [first] set, and the record [late] left is still there after it
    fired, and after [bare] and another expiry. *)
Lemma reset_record_is_pinned_witness :
  timers (after (webhook cfg late world cached)) = timers cached
  /\ sequenceMap (run cfg [Deliver late world; Tick; Deliver bare world; Tick] cached)
       !! "issue:7"
     = Some reset_record.
Proof.
  destruct scenario_authentic_computed as (_ & _ & _ & A4 & _).
  destruct scenario_envelopes_computed as (_ & _ & _ & E4 & _).
  assert (D : decision_of cfg late cached = Some Reset) by (vm_compute; reflexivity).
  apply (reset_record_is_pinned cfg late world cached late_envelope
           [Tick; Deliver bare world; Tick] A4 E4 D).
  - intros t [<-|[]] _. cbn [timer_stamp incomingTimestamp late_envelope envelope].
    unfold T. intros H. inversion H.
  - exact scenario_others_leave_issue_7.
Defined.

(** [first] and [bare] have different keys: [bare] is answered alike before
    and after [first], and the two leave the same table in either order. *)
Lemma requests_for_different_keys_commute_witness :
  response (webhook cfg bare world (after (webhook cfg first world init)))
  = response (webhook cfg bare world init)
  /\ sequenceMap (run cfg [Deliver first world; Deliver bare world] init)
     = sequenceMap (run cfg [Deliver bare world; Deliver first world] init).
Proof.
  destruct scenario_authentic_computed as (A1 & _).
  destruct scenario_envelopes_computed as (E1 & _).
  destruct scenario_bare_computed as (Ab & Eb).
  destruct (requests_for_different_keys_commute cfg first bare world world init
              first_envelope bare_envelope A1 E1 Ab Eb ltac:(discriminate))
    as (H1 & _ & H3).
  split; [exact H1|exact H3].
Defined.

End ScenarioRuns.
